(** * Fake-news detector: the analysis pipeline, embedded and verified

    The development follows the Python sources:
    - [clean_data.py]    : [clean_text], [articles_to_df]
    - [llm_helper.py]    : [CLICKBAIT_WORDS], [detect_clickbait_in_title],
                           [analyze_article_with_local_llm]
    - [main.py]          : [highlight_keyword], the keyword filter and the
                           per-article loop of the terminal front end
    - [streamlit_app.py] : the keyword filter and the per-article loop of the
                           web front end

    Python strings are sequences of Unicode code points; they are modelled as
    lists of [N].  What the interpreter's Unicode database decides (which code
    points are white space or word characters, how a string is lower-cased)
    is an interface, [Unicode], whose laws fix the behaviour on ASCII only. *)

From Stdlib Require Import NArith ZArith QArith Ascii String List Bool Lia.
From stdpp Require Import gmap strings list pretty.

Local Open Scope N_scope.

(** ** Strings *)

Abbreviation str := (list N).

(** A Python string literal of the sources, written as a Rocq string. *)
Definition pystr (x : string) : str := map N_of_ascii (list_ascii_of_string x).

Definition is_ascii (c : N) : bool := c <? 128.

Definition ascii_lower (c : N) : N :=
  if (65 <=? c) && (c <=? 90) then c + 32 else c.

Definition ascii_upper (c : N) : N :=
  if (97 <=? c) && (c <=? 122) then c - 32 else c.

(** White space below U+0080: TAB, LF, VT, FF, CR, FS, GS, RS, US, SPACE. *)
Definition ascii_isspace (c : N) : bool :=
  ((9 <=? c) && (c <=? 13)) || ((28 <=? c) && (c <=? 32)).

(** Word characters below U+0080: [A-Za-z0-9_]. *)
Definition ascii_isword (c : N) : bool :=
  ((48 <=? c) && (c <=? 57)) || ((65 <=? c) && (c <=? 90))
  || ((97 <=? c) && (c <=? 122)) || (c =? 95).

Definition SPACE : N := 32.

(** [x == y] on strings. *)
Definition str_eqb (x y : str) : bool := bool_decide (x = y).

(** [x.startswith(p)], used for slices compared with a pattern. *)
Fixpoint starts_with (p s : str) : bool :=
  match p, s with
  | [], _ => true
  | _ :: _, [] => false
  | a :: p', b :: s' => (a =? b) && starts_with p' s'
  end.

(** [p in s] for strings: [p] occurs in [s] at some position. *)
Fixpoint str_in (p s : str) : bool :=
  starts_with p s ||
  match s with
  | [] => false
  | _ :: s' => str_in p s'
  end.

(** The suffix of [s] that starts at its first character not in [p]. *)
Fixpoint drop_while (p : N -> bool) (s : str) : str :=
  match s with
  | [] => []
  | c :: s' => if p c then drop_while p s' else s
  end.

(** The number of leading characters of [s] that are in [p]. *)
Fixpoint run_len (p : N -> bool) (s : str) : nat :=
  match s with
  | [] => O
  | c :: s' => if p c then S (run_len p s') else O
  end.

(** ** The interpreter's Unicode tables *)

Class Unicode := {
  (** [\s] of [re] on [str] patterns *)
  isspace : N -> bool;
  (** [\w] of [re] on [str] patterns *)
  isword : N -> bool;
  (** a literal [p] of a pattern compiled with [re.IGNORECASE] matches [c] *)
  ieq : N -> N -> bool;
  (** [str.lower], [str.upper], [str.capitalize] *)
  lower : str -> str;
  upper : str -> str;
  capitalize : str -> str;
  isspace_ascii : forall c, is_ascii c = true -> isspace c = ascii_isspace c;
  isword_ascii : forall c, is_ascii c = true -> isword c = ascii_isword c;
  ieq_ascii : forall p c, is_ascii p = true -> is_ascii c = true ->
    ieq p c = (ascii_lower p =? ascii_lower c);
  lower_ascii : forall s, forallb is_ascii s = true -> lower s = map ascii_lower s;
  upper_ascii : forall s, forallb is_ascii s = true -> upper s = map ascii_upper s;
  capitalize_ascii : forall s, forallb is_ascii s = true ->
    capitalize s = match s with
                   | [] => []
                   | c :: r => ascii_upper c :: map ascii_lower r
                   end;
}.

(** ** Regular expressions of the [re] module

    The fragment the program uses: a pattern is a sequence of items, each a
    character class, possibly under the greedy [+].
    - [http\S+]  is [One (Lit h); One (Lit t); One (Lit t); One (Lit p); Plus NonSpace]
    - [[^\w\s]]  is [One NonWordNonSpace]
    - [\s+]      is [Plus Space] *)

Inductive cclass :=
  | Lit (c : N)           (* the character itself *)
  | LitI (c : N)          (* the character, under re.IGNORECASE *)
  | AnyChar               (* .  : anything but a newline *)
  | Space                 (* \s *)
  | NonSpace              (* \S *)
  | NonWordNonSpace.      (* [^\w\s] *)

Inductive item :=
  | One (k : cclass)
  | Plus (k : cclass).

Abbreviation regex := (list item).

Section Engine.
Context {U : Unicode}.

Definition in_class (k : cclass) (c : N) : bool :=
  match k with
  | Lit p => p =? c
  | LitI p => ieq p c
  | AnyChar => negb (c =? 10)
  | Space => isspace c
  | NonSpace => negb (isspace c)
  | NonWordNonSpace => negb (isword c || isspace c)
  end.

(** [match_len r s]: the length of the match of [r] at the start of [s]
    that a backtracking matcher finds first; [+] takes as many characters as
    it can and gives them back one at a time. *)
Fixpoint match_len (r : regex) : str -> option nat :=
  match r with
  | [] => fun _ => Some 0%nat
  | One k :: r' => fun s =>
      match s with
      | c :: s' => if in_class k c then S <$> match_len r' s' else None
      | [] => None
      end
  | Plus k :: r' =>
      fix plus (s : str) : option nat :=
        match s with
        | c :: s' =>
            if in_class k c then
              match plus s' with
              | Some n => Some (S n)
              | None => S <$> match_len r' s'
              end
            else None
        | [] => None
        end
  end.

(** [re.sub(r, repl, s)] for a pattern that matches no empty string: scan
    from the left; at a match, emit [repl] and resume after the match;
    otherwise copy one character.  [skip] counts the characters of the
    current match still to be passed over. *)
Fixpoint re_sub_from (skip : nat) (r : regex) (repl s : str) : str :=
  match s with
  | [] => []
  | c :: s' =>
      match skip with
      | S k => re_sub_from k r repl s'
      | O =>
          match match_len r s with
          | Some (S n) => repl ++ re_sub_from n r repl s'
          | _ => c :: re_sub_from 0 r repl s'
          end
      end
  end.

Definition re_sub (r : regex) (repl s : str) : str := re_sub_from 0 r repl s.

(** [re.search(r, s) is not None] *)
Fixpoint re_search (r : regex) (s : str) : bool :=
  match match_len r s with
  | Some _ => true
  | None => match s with
            | [] => false
            | _ :: s' => re_search r s'
            end
  end.

(** ** clean_data.py *)

Definition URL_RE : regex :=
  [One (Lit 104); One (Lit 116); One (Lit 116); One (Lit 112); Plus NonSpace].
Definition PUNCT_RE : regex := [One NonWordNonSpace].
Definition SPACES_RE : regex := [Plus Space].

Definition clean_text (text : str) : str :=
  let text := re_sub URL_RE [] text in
  let text := re_sub PUNCT_RE [] text in
  let text := re_sub SPACES_RE [SPACE] text in
  lower text.

End Engine.

(** ** clean_data.py: from the provider's articles to records

    An article is the dictionary decoded from the provider's JSON: a key is
    absent, or bound to null, to a string, or (for ["source"]) to an object
    of nulls and strings. *)

Inductive scalar :=
  | JNull
  | JStr (s : str).

Inductive value :=
  | Scalar (v : scalar)
  | Object (d : gmap string scalar).

Abbreviation article := (gmap string value).

Inductive exn :=
  | KeyError (key : string)
  | TypeError.

(** Exceptions: the first one raised ends the computation. *)
Abbreviation result := (sum exn).

Definition raise {A} (e : exn) : result A := inl e.

#[export] Instance result_ret : MRet result := fun A a => inr a.
#[export] Instance result_bind : MBind result := fun A B f m =>
  match m with
  | inl e => inl e
  | inr a => f a
  end.

(** [d[k]] *)
Definition getitem {V} (d : gmap string V) (k : string) : result V :=
  match d !! k with
  | Some v => mret v
  | None => raise (KeyError k)
  end.

(** [v[k]] for a value that should be a dictionary. *)
Definition subscript (v : value) (k : string) : result scalar :=
  match v with
  | Object d => getitem d k
  | Scalar _ => raise TypeError
  end.

(** [bool(v)] *)
Definition truthy (v : value) : bool :=
  match v with
  | Scalar JNull => false
  | Scalar (JStr s) => negb (bool_decide (s = []))
  | Object d => negb (bool_decide (d = ∅))
  end.

(** [d.get(k) or ""] *)
Definition get_or_empty (d : article) (k : string) : value :=
  match d !! k with
  | Some v => if truthy v then v else Scalar (JStr [])
  | None => Scalar (JStr [])
  end.

(** [a + b], defined on two strings. *)
Definition add (a b : value) : result str :=
  match a, b with
  | Scalar (JStr x), Scalar (JStr y) => mret (x ++ y)
  | _, _ => raise TypeError
  end.

Record record := {
  r_source : scalar;
  r_title : value;
  r_text : str;
  r_publishedAt : value;
}.

Section Records.
Context {U : Unicode}.

(** The body of the loop of [articles_to_df]. *)
Definition build_record (art : article) : result record :=
  title ← getitem art "title"%string;
  let description := get_or_empty art "description"%string in
  title_sp ← add title (Scalar (JStr [SPACE]));
  combined ← add (Scalar (JStr title_sp)) description;
  let cleaned := clean_text combined in
  source ← getitem art "source"%string;
  name ← subscript source "name"%string;
  title' ← getitem art "title"%string;
  published ← getitem art "publishedAt"%string;
  mret {| r_source := name; r_title := title'; r_text := cleaned;
          r_publishedAt := published |}.

(** [articles_to_df]: the data frame is the list of its rows. *)
Fixpoint articles_to_df (articles : list article) : result (list record) :=
  match articles with
  | [] => mret []
  | art :: rest =>
      r ← build_record art;
      records ← articles_to_df rest;
      mret (r :: records)
  end.

End Records.

(** *** What the provider's contract says of an article, and the words of
    the specification *)

(** The fields that are present have the types of the provider's schema:
    the title a string, the description a string or null, the source an
    object. *)
Definition well_typed (art : article) : bool :=
  match art !! "title"%string with
  | Some (Scalar (JStr _)) | None => true
  | _ => false
  end &&
  match art !! "description"%string with
  | Some (Scalar _) | None => true
  | _ => false
  end &&
  match art !! "source"%string with
  | Some (Object _) | None => true
  | _ => false
  end.

(** The name of the source, when the article has a source with a name. *)
Definition source_name (art : article) : option scalar :=
  match art !! "source"%string with
  | Some (Object d) => d !! "name"%string
  | _ => None
  end.

(** The description, an absent one read as the empty string. *)
Definition description_text (art : article) : str :=
  match art !! "description"%string with
  | Some (Scalar (JStr s)) => s
  | _ => []
  end.

(** ** llm_helper.py: clickbait detection *)

Definition CLICKBAIT_WORDS : list str :=
  map pystr
    ["shocking"; "unbelievable"; "you won't believe"; "secret"; "exposed";
     "surprising"; "this will change"; "the truth about"; "miracle";
     "guaranteed"; "instantly"; "click here"]%string.

Section Clickbait.
Context {U : Unicode}.

Definition detect_clickbait_in_title (title : str) : str :=
  let title_lower := lower title in
  let found_words :=
    List.filter (fun word => str_in word title_lower) CLICKBAIT_WORDS in
  match found_words with
  | _ :: _ => pystr "Clickbait"
  | [] => pystr "Not Clickbait"
  end.

(** The per-article loop of [main.py]:
    [clickbait_label = detect_clickbait_in_title(row.get('title', ''))]. *)
Definition terminal_clickbait_label (title : str) : str :=
  let clickbait_result := detect_clickbait_in_title title in
  clickbait_result.

(** The per-article loop of [streamlit_app.py]:
    ["Clickbait" if "likely clickbait" in clickbait_result.lower()
     else "Not Clickbait"]. *)
Definition web_clickbait_label (title : str) : str :=
  let clickbait_result := detect_clickbait_in_title title in
  if str_in (pystr "likely clickbait") (lower clickbait_result)
  then pystr "Clickbait"
  else pystr "Not Clickbait".

End Clickbait.

(** ** llm_helper.py: sentiment analysis

    The pretrained model is a collaborator: a function from the text to the
    first entry of its answer, a raw label and a raw score.  A score is
    modelled by the rational number the float stands for; [round(x, 2)]
    rounds that number to the nearest hundredth, ties to even, and the float
    returned is the one nearest to that hundredth. *)

Record raw_result := { raw_label : str; raw_score : Q }.
Record sentiment := { label : str; score : Q }.

(** The integer nearest to [q], ties to the even one. *)
Definition round_half_even (q : Q) : Z :=
  let n := Qnum q in
  let d := Zpos (Qden q) in
  let f := (n / d)%Z in
  match (2 * (n mod d) ?= d)%Z with
  | Lt => f
  | Gt => (f + 1)%Z
  | Eq => if Z.even f then f else (f + 1)%Z
  end.

(** [round(x, 2)] *)
Definition round2 (x : Q) : Q := (round_half_even (x * 100) # 100)%Q.

Section Sentiment.
Context {U : Unicode}.
Variable classifier : str -> raw_result.

Definition analyze_article_with_local_llm (text : str) : sentiment :=
  let text := firstn 512 text in
  let result := classifier text in
  let label := capitalize (raw_label result) in
  let score := round2 (raw_score result) in
  {| label := label; score := score |}.

End Sentiment.

(** ** main.py and streamlit_app.py: the keyword filter

    Both front ends keep the rows for which
    [df["title"].str.contains(topic, case=False, na=False) |
     df["text"].str.contains(topic, case=False, na=False)]
    holds.  [Series.str.contains] reads its argument as a regular expression
    ([regex=True] is its default), compiles it with [re.IGNORECASE] and
    searches each string; an entry that is not a string counts as [na].

    Of the pattern language, literals and [.] are modelled; a topic with
    another special character is outside the model ([None]). *)

Definition DOT : N := 46.

(** The special characters of [re]: . ^ $ * + ? { } [ ] \ | ( ) *)
Definition is_special (c : N) : bool :=
  existsb (N.eqb c) [46; 94; 36; 42; 43; 63; 123; 125; 91; 93; 92; 124; 40; 41].

Fixpoint re_compile_ignorecase (pat : str) : option regex :=
  match pat with
  | [] => Some []
  | c :: pat' =>
      if c =? DOT then cons (One AnyChar) <$> re_compile_ignorecase pat'
      else if is_special c then None
      else cons (One (LitI c)) <$> re_compile_ignorecase pat'
  end.

Section Filter.
Context {U : Unicode}.

(** One entry of [column.str.contains(pat, case=False, na=False)]. *)
Definition str_contains_nocase (pat : str) (entry : value) : option bool :=
  r ← re_compile_ignorecase pat;
  Some (match entry with
        | Scalar (JStr s) => re_search r s
        | _ => false
        end).

Definition keep_row (topic : str) (row : record) : option bool :=
  in_title ← str_contains_nocase topic (r_title row);
  in_text ← str_contains_nocase topic (Scalar (JStr (r_text row)));
  Some (in_title || in_text).

(** [df[...]]: the rows kept, in order. *)
Fixpoint keyword_filter (topic : str) (df : list record) : option (list record) :=
  match df with
  | [] => Some []
  | row :: rest =>
      keep ← keep_row topic row;
      kept_rest ← keyword_filter topic rest;
      Some (if (keep : bool) then row :: kept_rest else kept_rest)
  end.

(** The test the specification words: the topic occurs, case-insensitively,
    as a substring of the title or of the normalized text. *)
Definition occurs_nocase (topic s : str) : bool :=
  str_in (lower topic) (lower s).

Definition topic_occurs (topic : str) (row : record) : bool :=
  match r_title row with
  | Scalar (JStr t) => occurs_nocase topic t
  | _ => false
  end || occurs_nocase topic (r_text row).

End Filter.

(** ** main.py: highlighting the keyword in the terminal *)

Section Highlight.
Context {U : Unicode}.
(** [Fore.RED] and the base colour, escape sequences of [colorama]. *)
Variables RED base_color : str.

(** [text[i:j]] *)
Definition slice (text : str) (i j : nat) : str := firstn (j - i) (skipn i text).

(** The [while] loop, run for at most [fuel] iterations; [None] when the
    fuel runs out before the loop ends.  The test [i < len(text)] and the
    read [text[i]] are the one lookup [text !! i]. *)
Fixpoint highlight_loop (fuel : nat) (text keyword keyword_lower : str)
    (i : nat) (highlighted_text : str) : option str :=
  match fuel with
  | O => None
  | S fuel' =>
      match text !! i with
      | None => Some highlighted_text
      | Some c =>
          let here := slice text i (i + length keyword) in
          if str_eqb (lower here) keyword_lower
          then highlight_loop fuel' text keyword keyword_lower
                 (i + length keyword) (highlighted_text ++ RED ++ here ++ base_color)
          else highlight_loop fuel' text keyword keyword_lower
                 (i + 1) (highlighted_text ++ [c])
      end
  end.

Definition highlight_keyword (fuel : nat) (text keyword : str) : option str :=
  let keyword_lower := lower keyword in
  highlight_loop fuel text keyword keyword_lower 0 [].

End Highlight.

(** ** The four steps of text normalization, as the specification words them *)

Section Steps.
Context {U : Unicode}.

(** "a URL pattern beginning with http": the four letters, then at least one
    character that is not white space. *)
Definition url_starts (s : str) : bool :=
  starts_with (pystr "http") s &&
  match skipn 4 s with
  | c :: _ => negb (isspace c)
  | [] => false
  end.

(** Step 1: where a URL starts, drop it up to the next white space. *)
Fixpoint remove_urls_fuel (fuel : nat) (s : str) : str :=
  match fuel, s with
  | O, _ => []
  | _, [] => []
  | S f, c :: s' =>
      if url_starts s
      then remove_urls_fuel f (drop_while (fun c => negb (isspace c)) (skipn 4 s))
      else c :: remove_urls_fuel f s'
  end.

Definition remove_urls (s : str) : str := remove_urls_fuel (length s) s.

(** Step 2: keep the word characters and the white space. *)
Definition remove_punctuation (s : str) : str :=
  List.filter (fun c => isword c || isspace c) s.

(** Step 3: every run of white space becomes one ASCII space; [in_run]
    tells that the previous character was white space. *)
Fixpoint squeeze (in_run : bool) (s : str) : str :=
  match s with
  | [] => []
  | c :: s' =>
      if isspace c
      then (if in_run then squeeze true s' else SPACE :: squeeze true s')
      else c :: squeeze false s'
  end.

Definition collapse_whitespace (s : str) : str := squeeze false s.

(** The normalizer of the specification: steps 1 to 4, in order. *)
Definition normalize (t : str) : str :=
  lower (collapse_whitespace (remove_punctuation (remove_urls t))).

End Steps.

(** ** Predicates used in the proofs *)

Definition ascii_class (k : cclass) : bool :=
  match k with
  | LitI p => is_ascii p
  | _ => true
  end.

Definition ascii_item (i : item) : bool :=
  match i with
  | One k | Plus k => ascii_class k
  end.

Section Shape.
Context {U : Unicode}.

(** Word character or white space: what step 2 keeps. *)
Definition kept (c : N) : bool := isword c || isspace c.

(** White space occurs only as single ASCII spaces; [in_run] as in [squeeze]. *)
Fixpoint squeezed (in_run : bool) (s : str) : bool :=
  match s with
  | [] => true
  | c :: s' =>
      if isspace c
      then negb in_run && (c =? SPACE) && squeezed true s'
      else squeezed false s'
  end.

End Shape.

(** The pattern a topic without special characters compiles to. *)
Definition literals (p : str) : regex := map (fun c => One (LitI c)) p.

(** ** A Unicode table to compute with

    Exact on ASCII, on all white space, and on the four code points
    U+0130 (capital I with dot above), U+0131 (dotless i), U+017F (long s)
    and U+0307 (combining dot above); every other code point is left
    caseless and outside [\w], so this table is only evaluated on strings
    made of the code points listed. *)
Module Table.

Definition isspace (c : N) : bool :=
  if is_ascii c then ascii_isspace c
  else (c =? 133) || (c =? 160) || (c =? 5760)
       || ((8192 <=? c) && (c <=? 8202))
       || (c =? 8232) || (c =? 8233) || (c =? 8239) || (c =? 8287)
       || (c =? 12288).

Definition isword (c : N) : bool :=
  if is_ascii c then ascii_isword c
  else (c =? 304) || (c =? 305) || (c =? 383).

Definition lower1 (c : N) : str :=
  if is_ascii c then [ascii_lower c]
  else if c =? 304 then [105; 775] else [c].

Definition upper1 (c : N) : str :=
  if is_ascii c then [ascii_upper c]
  else if c =? 305 then [73]
  else if c =? 383 then [83] else [c].

Definition lower (s : str) : str := flat_map lower1 s.
Definition upper (s : str) : str := flat_map upper1 s.

Definition capitalize (s : str) : str :=
  match s with
  | [] => []
  | c :: r => upper1 c ++ lower r
  end.

(** Case-insensitive literal: the lower-cased code points agree, or the
    literal is [s] and the character the long s, or [i] and the dotless i. *)
Definition ieq (p c : N) : bool :=
  match lower1 p, lower1 c with
  | [a], [b] => (a =? b) || ((a =? 115) && (b =? 383)) || ((a =? 105) && (b =? 305))
  | _, _ => p =? c
  end.

End Table.

(** The table, with the proofs that it is the ASCII table below U+0080. *)
Definition table : Unicode.
Proof.
  refine {| isspace := Table.isspace; isword := Table.isword;
            ieq := Table.ieq; lower := Table.lower; upper := Table.upper;
            capitalize := Table.capitalize |}.
  - intros c H. unfold Table.isspace. rewrite H. reflexivity.
  - intros c H. unfold Table.isword. rewrite H. reflexivity.
  - intros p c Hp Hc. unfold Table.ieq, Table.lower1. rewrite Hp, Hc.
    assert (ascii_lower c <> 383 /\ ascii_lower c <> 305) as [H1 H2].
    { unfold is_ascii in Hc. apply N.ltb_lt in Hc. unfold ascii_lower.
      destruct (_ && _) eqn:E;
        [apply andb_prop in E as [_ E]; apply N.leb_le in E|]; lia. }
    apply N.eqb_neq in H1, H2. rewrite H1, H2, !andb_false_r, !orb_false_r.
    reflexivity.
  - induction s as [|c s IH]; simpl; [reflexivity|].
    intros [Hc Hs]%andb_prop. unfold Table.lower1. rewrite Hc. simpl.
    f_equal. exact (IH Hs).
  - induction s as [|c s IH]; simpl; [reflexivity|].
    intros [Hc Hs]%andb_prop. unfold Table.upper1. rewrite Hc. simpl.
    f_equal. exact (IH Hs).
  - intros [|c r]; simpl; [reflexivity|].
    intros [Hc Hs]%andb_prop. unfold Table.upper1. rewrite Hc. simpl.
    f_equal. clear c Hc. induction r as [|c r IH]; simpl; [reflexivity|].
    simpl in Hs. apply andb_prop in Hs as [Hc Hs].
    unfold Table.lower1. rewrite Hc. simpl. f_equal. exact (IH Hs).
Defined.

(** ** Inputs of the examples *)

(** The title "ſecret", with U+017F LATIN SMALL LETTER LONG S. *)
Definition long_s_secret : str := 383 :: pystr "ecret".

(** A model that answers NEUTRAL with confidence one half. *)
Definition neutral_model (_ : str) : raw_result :=
  {| raw_label := pystr "NEUTRAL"; raw_score := (1 # 2)%Q |}.

(** A model that answers PoSiTiVe with confidence 0.98765. *)
Definition positive_model (_ : str) : raw_result :=
  {| raw_label := pystr "PoSiTiVe"; raw_score := (98765 # 100000)%Q |}.

(** A record with its title and source name but no publication time. *)
Definition undated_article : article :=
  {[ "title"%string := Scalar (JStr (pystr "News Title"));
     "source"%string := Object {[ "name"%string := JStr (pystr "CNN") ]} ]}.

(** A complete article, from the docstring of [articles_to_df]. *)
Definition docstring_article : article :=
  {[ "title"%string := Scalar (JStr (pystr "News Title"));
     "description"%string := Scalar (JStr (pystr "News desc"));
     "source"%string := Object {[ "name"%string := JStr (pystr "CNN") ]};
     "publishedAt"%string := Scalar (JStr (pystr "2025-01-01")) ]}.

(** An article that never mentions the topic "u.s". *)
Definition guest_article : article :=
  {[ "title"%string := Scalar (JStr (pystr "Guest list announced"));
     "description"%string := Scalar (JStr (pystr "The gala opens on Friday."));
     "source"%string := Object {[ "name"%string := JStr (pystr "Example News") ]};
     "publishedAt"%string := Scalar (JStr (pystr "2025-01-01")) ]}.

Definition guest_row : record :=
  {| r_source := JStr (pystr "Example News");
     r_title := Scalar (JStr (pystr "Guest list announced"));
     r_text := pystr "guest list announced the gala opens on friday";
     r_publishedAt := Scalar (JStr (pystr "2025-01-01")) |}.

(** * More of the program *)

(** ** Word counts: [len(text.split())]

    [main.py], [streamlit_app.py] and [analyze.py] count the words of a text
    as [len(x.split())].  [str.split()] without argument cuts the string at
    runs of white space, the same white space as [\s]. *)

Section WordCount.
Context {U : Unicode}.

(** [s.split()], read from the left; [word] holds the characters of the
    word being read. *)
Fixpoint split_from (word s : str) : list str :=
  match s with
  | [] => match word with [] => [] | _ :: _ => [word] end
  | c :: s' =>
      if isspace c
      then match word with
           | [] => split_from [] s'
           | _ :: _ => word :: split_from [] s'
           end
      else split_from (word ++ [c]) s'
  end.

Definition str_split (s : str) : list str := split_from [] s.

Definition word_count (text : str) : nat := length (str_split text).

(** [analyze.py]: the two samples [compare_lengths] hands to the t-test,
    and the column [plot_word_counts] adds. *)
Definition group_lengths (df : list record) : list nat :=
  map (fun row => word_count (r_text row)) df.

(** The number of maximal runs of characters that are not white space;
    [in_word] tells that the previous character was not white space. *)
Fixpoint count_runs (in_word : bool) (s : str) : nat :=
  match s with
  | [] => O
  | c :: s' =>
      if isspace c then count_runs false s'
      else (if in_word then O else 1%nat) + count_runs true s'
  end.

End WordCount.

(** ** The per-article loops of the two front ends *)

Record result_row := {
  Article : str;
  Title : value;
  Clickbait : str;
  Sentiment : str;
  Sentiment_Score : Q;
  Combined_Label : str;
  Word_Count : nat;
}.

(** Calling a string method on a value that is not a string. *)
Inductive attribute_error :=
  | AttributeError (attr : string).

#[export] Instance attribute_error_ret : MRet (sum attribute_error) :=
  fun A a => inr a.
#[export] Instance attribute_error_bind : MBind (sum attribute_error) :=
  fun A B f m =>
    match m with
    | inl e => inl e
    | inr a => f a
    end.

Section FrontEnds.
Context {U : Unicode}.
Variable classifier : str -> raw_result.

(** [detect_clickbait_in_title(row.get('title', ''))]: the classifier
    starts with [title.lower()]. *)
Definition detect_clickbait_of (title : value) : attribute_error + str :=
  match title with
  | Scalar (JStr t) => mret (detect_clickbait_in_title t)
  | _ => inl (AttributeError "lower")
  end.

(** [main.py], the body of the loop over [df_filtered.iterrows()]. *)
Definition terminal_row (idx : nat) (row : record) : attribute_error + result_row :=
  clickbait_result ← detect_clickbait_of (r_title row);
  let clickbait_label := clickbait_result in
  let sentiment_result := analyze_article_with_local_llm classifier (r_text row) in
  let sentiment_label := label sentiment_result in
  let sentiment_score := score sentiment_result in
  let combined_label := clickbait_label ++ pystr " + " ++ sentiment_label in
  let word_count := word_count (r_text row) in
  mret {| Article := pystr (pretty idx); Title := r_title row;
          Clickbait := clickbait_label; Sentiment := sentiment_label;
          Sentiment_Score := sentiment_score;
          Combined_Label := combined_label; Word_Count := word_count |}.

(** [streamlit_app.py], the body of the same loop. *)
Definition web_row (idx : nat) (row : record) : attribute_error + result_row :=
  clickbait_result ← detect_clickbait_of (r_title row);
  let clickbait_label :=
    if str_in (pystr "likely clickbait") (lower clickbait_result)
    then pystr "Clickbait" else pystr "Not Clickbait" in
  let sentiment_result := analyze_article_with_local_llm classifier (r_text row) in
  let sentiment_label := capitalize (label sentiment_result) in
  let sentiment_score := round2 (score sentiment_result) in
  let combined_label := clickbait_label ++ pystr " + " ++ sentiment_label in
  let word_count := word_count (r_text row) in
  mret {| Article := pystr (pretty idx); Title := r_title row;
          Clickbait := clickbait_label; Sentiment := sentiment_label;
          Sentiment_Score := sentiment_score;
          Combined_Label := combined_label; Word_Count := word_count |}.

(** [for idx, (i, row) in enumerate(df_filtered.iterrows(), start=1):
     ... results.append({...})] *)
Fixpoint analysis_loop (body : nat -> record -> attribute_error + result_row)
    (idx : nat) (rows : list record) (results : list result_row)
    : attribute_error + list result_row :=
  match rows with
  | [] => mret results
  | row :: rest =>
      r ← body idx row;
      analysis_loop body (S idx) rest (results ++ [r])
  end.


Definition web_results (df_filtered : list record) :=
  analysis_loop web_row 1 df_filtered [].

End FrontEnds.

(** ** streamlit_app.py: highlighting the keyword in HTML *)

Definition QUOTE : N := 34.

(** The replacement template is [SPAN_OPEN], the match ([\g<0>]) and
    [SPAN_CLOSE]. *)
Definition SPAN_OPEN : str :=
  pystr "<span style=" ++ [QUOTE] ++ pystr "color:red; font-weight:bold;"
  ++ [QUOTE] ++ pystr ">".
Definition SPAN_CLOSE : str := pystr "</span>".

Section HighlightHtml.
Context {U : Unicode}.

(** [pattern.sub(template, s)] for a template [pre \g<0> post]: every match,
    the empty ones too, is wrapped in [pre] and [post]. *)
Fixpoint re_sub_wrap_from (skip : nat) (r : regex) (pre post s : str) : str :=
  match s with
  | [] =>
      match skip, match_len r [] with
      | O, Some O => pre ++ post
      | _, _ => []
      end
  | c :: s' =>
      match skip with
      | S k => re_sub_wrap_from k r pre post s'
      | O =>
          match match_len r s with
          | Some (S n) =>
              pre ++ firstn (S n) s ++ post ++ re_sub_wrap_from n r pre post s'
          | Some O => pre ++ post ++ c :: re_sub_wrap_from 0 r pre post s'
          | None => c :: re_sub_wrap_from 0 r pre post s'
          end
      end
  end.

(** [re.compile(re.escape(keyword), re.IGNORECASE)]: [re.escape] quotes the
    special characters, so the pattern is the keyword, character by
    character, case-insensitively. *)
Definition escaped_pattern (keyword : str) : regex := literals keyword.

Definition highlight_keyword_html (text keyword : str) : str :=
  match text with
  | [] => []
  | _ :: _ =>
      let pattern := escaped_pattern keyword in
      re_sub_wrap_from 0 pattern SPAN_OPEN SPAN_CLOSE text
  end.

End HighlightHtml.

(** ** demo.py *)

Record sample_article := {
  s_title : str;
  s_source : str;
  s_content : str;
  s_topic : str;
}.

Definition create_sample_data : list sample_article :=
  [ {| s_title := pystr "You Won't Believe What This Celebrity Did Next!";
       s_source := pystr "ClickbaitNews";
       s_content := pystr "This shocking revelation will change everything you thought you knew about celebrities.";
       s_topic := pystr "celebrity" |};
    {| s_title := pystr "Federal Reserve Announces New Interest Rate Policy";
       s_source := pystr "Financial Times";
       s_content := pystr "The Federal Reserve has announced a new monetary policy framework targeting inflation control.";
       s_topic := pystr "economy" |};
    {| s_title := pystr "Scientists Discover New Species in Amazon Rainforest";
       s_source := pystr "Nature Journal";
       s_content := pystr "Researchers have identified a previously unknown primate species in the Amazon basin.";
       s_topic := pystr "science" |};
    {| s_title := pystr "This Simple Trick Will Double Your Income Overnight!";
       s_source := pystr "MoneyHacks";
       s_content := pystr "Financial experts hate this one weird trick that can transform your finances instantly.";
       s_topic := pystr "finance" |};
    {| s_title := pystr "Climate Change Report Shows Alarming Temperature Trends";
       s_source := pystr "Environmental Science";
       s_content := pystr "Latest IPCC report reveals concerning data about global temperature increases over the past decade.";
       s_topic := pystr "climate" |} ].

Record demo_row := {
  d_Article : nat;
  d_Title : str;
  d_Source : str;
  d_Topic : str;
  d_Clickbait : str;
  d_Sentiment : str;
  d_Word_Count : nat;
}.

(** U+274C, the cross mark the demo looks for. *)
Definition CROSS_MARK : N := 10060.

Section Demo.
Context {U : Unicode}.
Variable classifier : str -> raw_result.

(** [sentiment_result.upper()], where [sentiment_result] is the dictionary
    [analyze_article_with_local_llm] returns: a dictionary has no [upper]. *)
Definition dict_upper (d : sentiment) : attribute_error + str :=
  inl (AttributeError "upper").

(** The body of the loop of [analyze_sample_articles]. *)
Definition demo_body (i : nat) (article : sample_article)
    : attribute_error + demo_row :=
  let clickbait_result := detect_clickbait_in_title (s_title article) in
  let clickbait_clean :=
    if str_in [CROSS_MARK] clickbait_result
    then pystr "Clickbait" else pystr "Not Clickbait" in
  let sentiment_result :=
    analyze_article_with_local_llm classifier (s_content article) in
  upper1 ← dict_upper sentiment_result;
  sentiment_clean ←
    (if str_in (pystr "NEGATIVE") upper1 then mret (pystr "Negative")
     else upper2 ← dict_upper sentiment_result;
          if str_in (pystr "POSITIVE") upper2 then mret (pystr "Positive")
          else mret (pystr "Neutral"));
  mret {| d_Article := i; d_Title := s_title article;
          d_Source := s_source article; d_Topic := s_topic article;
          d_Clickbait := clickbait_clean; d_Sentiment := sentiment_clean;
          d_Word_Count := word_count (s_content article) |}.

Fixpoint demo_loop (i : nat) (articles : list sample_article)
    (results : list demo_row) : attribute_error + list demo_row :=
  match articles with
  | [] => mret results
  | article :: rest =>
      r ← demo_body i article;
      demo_loop (S i) rest (results ++ [r])
  end.

Definition analyze_sample_articles : attribute_error + list demo_row :=
  demo_loop 1 create_sample_data [].

End Demo.

(** ** main.py and streamlit_app.py: the text shown for the selected article *)

(** [row.get(key, default)] on a row of the data frame of [articles_to_df]:
    the entry of the column, the default for a label that is no column. *)
Definition series_get (row : record) (key : string) (default : value) : value :=
  if decide (key = "source"%string) then Scalar (r_source row)
  else if decide (key = "title"%string) then r_title row
  else if decide (key = "text"%string) then Scalar (JStr (r_text row))
  else if decide (key = "publishedAt"%string) then r_publishedAt row
  else default.

(** [a or b] *)
Definition py_or (a b : value) : value := if truthy a then a else b.

(** [df_full.get('text') or df_full.get('content')
     or df_full.get('description') or df_full.get('title', '')] *)
Definition full_text (df_full : record) : value :=
  py_or (series_get df_full "text" (Scalar JNull))
    (py_or (series_get df_full "content" (Scalar JNull))
       (py_or (series_get df_full "description" (Scalar JNull))
          (series_get df_full "title" (Scalar (JStr []))))).

(** ** Predicates of the further properties *)

(** Not white space. *)
Definition nonspace {U : Unicode} (c : N) : bool := negb (isspace c).

(** A lower-case ASCII letter, a digit, an underscore or the space. *)
Definition normalized_char (c : N) : bool :=
  ((97 <=? c) && (c <=? 122)) || ((48 <=? c) && (c <=? 57))
  || (c =? 95) || (c =? SPACE).

(** A row whose title is a string of ASCII characters and whose text is
    made of ASCII characters. *)
Definition ascii_row (row : record) : bool :=
  match r_title row with
  | Scalar (JStr t) => forallb is_ascii t
  | _ => false
  end && forallb is_ascii (r_text row).

(** An article whose title is a string of ASCII characters and whose
    description, if any, is made of ASCII characters. *)
Definition ascii_article (art : article) : bool :=
  match art !! "title"%string with
  | Some (Scalar (JStr t)) => forallb is_ascii t
  | _ => false
  end && forallb is_ascii (description_text art).

(** [out] is [text] in which some segments, each equal to the keyword up to
    case ([kl] is the lower-cased keyword), are wrapped in [RED] and
    [base_color]; nothing else is added, removed or moved. *)
Inductive decorated {U : Unicode} (RED base_color kl : str) : str -> str -> Prop :=
  | decorated_nil : decorated RED base_color kl [] []
  | decorated_char c text out :
      decorated RED base_color kl text out ->
      decorated RED base_color kl (c :: text) (c :: out)
  | decorated_hit w text out :
      lower w = kl ->
      decorated RED base_color kl text out ->
      decorated RED base_color kl (w ++ text) (RED ++ w ++ base_color ++ out).

(** ** Inputs of the further examples *)

(** The row built from [docstring_article]. *)
Definition docstring_row : record :=
  {| r_source := JStr (pystr "CNN");
     r_title := Scalar (JStr (pystr "News Title"));
     r_text := pystr "news title news desc";
     r_publishedAt := Scalar (JStr (pystr "2025-01-01")) |}.

(** A model that answers as [positive_model] on texts of at most 512
    characters and as [neutral_model] on longer ones. *)
Definition short_sighted_model (x : str) : raw_result :=
  if (length x <=? 512)%nat then positive_model x else neutral_model x.

(** * Proofs *)

(** ** Facts about the ASCII tables *)

Lemma is_ascii_lt c : is_ascii c = true <-> c < 128.
Proof. apply N.ltb_lt. Qed.

Ltac ascii_cases :=
  unfold ascii_lower, ascii_upper, ascii_isspace, ascii_isword, is_ascii in *;
  repeat match goal with
  | H : _ && _ = true |- _ => apply andb_prop in H; destruct H
  | H : _ || _ = true |- _ => apply orb_prop in H; destruct H
  | H : (_ <=? _) = true |- _ => apply N.leb_le in H
  | H : (_ <? _) = true |- _ => apply N.ltb_lt in H
  | H : (_ =? _) = true |- _ => apply N.eqb_eq in H
  | H : (_ <=? _) = false |- _ => apply N.leb_gt in H
  | H : (_ <? _) = false |- _ => apply N.ltb_ge in H
  | H : (_ =? _) = false |- _ => apply N.eqb_neq in H
  | |- context [?a <=? ?b] => destruct (N.leb_spec a b); simpl in *
  | |- context [?a <? ?b] => destruct (N.ltb_spec a b); simpl in *
  | |- context [?a =? ?b] => destruct (N.eqb_spec a b); simpl in *
  | _ : context [?a <=? ?b] |- _ => destruct (N.leb_spec a b); simpl in *
  | _ : context [?a <? ?b] |- _ => destruct (N.ltb_spec a b); simpl in *
  | _ : context [?a =? ?b] |- _ => destruct (N.eqb_spec a b); simpl in *
  end;
  try reflexivity; try lia.

Lemma ascii_lower_ascii c : is_ascii c = true -> is_ascii (ascii_lower c) = true.
Proof. intros H. ascii_cases. Qed.

Lemma ascii_upper_ascii c : is_ascii c = true -> is_ascii (ascii_upper c) = true.
Proof. intros H. ascii_cases. Qed.

Lemma ascii_lower_idem c : ascii_lower (ascii_lower c) = ascii_lower c.
Proof. ascii_cases. Qed.

Lemma ascii_lower_upper c : ascii_lower (ascii_upper c) = ascii_lower c.
Proof. ascii_cases. Qed.

Lemma ascii_isspace_lower c : ascii_isspace (ascii_lower c) = ascii_isspace c.
Proof. ascii_cases. Qed.

Lemma ascii_isword_lower c : ascii_isword (ascii_lower c) = ascii_isword c.
Proof. ascii_cases. Qed.

Lemma ascii_lower_space c : ascii_isspace c = true -> ascii_lower c = c.
Proof. intros H. ascii_cases. Qed.

Lemma forallb_ascii_map_lower s :
  forallb is_ascii s = true -> forallb is_ascii (map ascii_lower s) = true.
Proof.
  induction s as [|c s IH]; simpl; [reflexivity|].
  intros [Hc Hs]%andb_prop. rewrite (ascii_lower_ascii c Hc). exact (IH Hs).
Qed.

Lemma forallb_ascii_map_upper s :
  forallb is_ascii s = true -> forallb is_ascii (map ascii_upper s) = true.
Proof.
  induction s as [|c s IH]; simpl; [reflexivity|].
  intros [Hc Hs]%andb_prop. rewrite (ascii_upper_ascii c Hc). exact (IH Hs).
Qed.

(** ** The reference cases of [clean_text] *)

Example clean_text_reference_table :
  @clean_text table (pystr "Check this! https://x.co Amazing!!!")
  = pystr "check this amazing".
Proof. vm_compute. reflexivity. Qed.

Example clean_text_docstring_table :
  @clean_text table (pystr "Check this out! https://example.com   Amazing stuff!!!")
  = pystr "check this out amazing stuff".
Proof. vm_compute. reflexivity. Qed.

(** ** The matcher and the substitution *)

Section EngineFacts.
Context {U : Unicode}.

Lemma re_sub_from_0_cons r repl c s :
  re_sub_from 0 r repl (c :: s) =
  match match_len r (c :: s) with
  | Some (S n) => repl ++ re_sub_from n r repl s
  | _ => c :: re_sub_from 0 r repl s
  end.
Proof. reflexivity. Qed.

(** Passing over [n] characters is dropping them. *)
Lemma re_sub_from_skip n r repl s :
  re_sub_from n r repl s = re_sub_from 0 r repl (skipn n s).
Proof.
  revert s. induction n as [|n IH]; intros s; [reflexivity|].
  destruct s as [|c s]; [reflexivity|]. simpl skipn. rewrite <- IH. reflexivity.
Qed.

(** Where the pattern matches nowhere, the substitution changes nothing. *)
Lemma re_sub_no_match r repl s :
  re_search r s = false -> re_sub r repl s = s.
Proof.
  unfold re_sub. induction s as [|c s IH]; intros H; [reflexivity|].
  rewrite re_sub_from_0_cons. simpl in H.
  destruct (match_len r (c :: s)); [discriminate|].
  f_equal. exact (IH H).
Qed.

(** The output is made of characters of the input and of the replacement. *)
Lemma re_sub_from_forallb (P : N -> bool) r repl s n :
  forallb P repl = true -> forallb P s = true ->
  forallb P (re_sub_from n r repl s) = true.
Proof.
  intros Hrepl. revert n. induction s as [|c s IH]; intros n Hs; [reflexivity|].
  simpl in Hs. apply andb_prop in Hs as [Hc Hs].
  destruct n as [|n]; [|simpl; apply IH, Hs].
  rewrite re_sub_from_0_cons.
  destruct (match_len r (c :: s)) as [[|m]|].
  - simpl. rewrite Hc. apply IH, Hs.
  - rewrite forallb_app, Hrepl. apply IH, Hs.
  - simpl. rewrite Hc. apply IH, Hs.
Qed.

(** A replacement of at most one character never lengthens the text. *)
Lemma re_sub_from_length r repl s : forall n,
  (length repl <= 1)%nat ->
  (length (re_sub_from n r repl s) <= length s)%nat.
Proof.
  intros n Hrepl. revert n. induction s as [|c s IH]; intros n; [simpl; lia|].
  destruct n as [|n]; [|specialize (IH n); simpl; lia].
  rewrite re_sub_from_0_cons.
  destruct (match_len r (c :: s)) as [[|m]|];
    [specialize (IH 0%nat) | specialize (IH m) | specialize (IH 0%nat)];
    rewrite ?length_app; simpl; lia.
Qed.

Lemma skipn_run_len p (s : str) : skipn (run_len p s) s = drop_while p s.
Proof.
  induction s as [|c s IH]; [reflexivity|]. simpl.
  destruct (p c); [exact IH | reflexivity].
Qed.

Lemma drop_while_length p (s : str) : (length (drop_while p s) <= length s)%nat.
Proof.
  induction s as [|c s IH]; simpl; [lia|]. destruct (p c); simpl; lia.
Qed.

(** A single class under [+], alone: the whole run, when it is not empty. *)
Lemma match_len_plus k s :
  match_len [Plus k] s =
  match run_len (in_class k) s with
  | O => None
  | S n => Some (S n)
  end.
Proof.
  induction s as [|c s IH]; [reflexivity|].
  simpl in *. destruct (in_class k c); [|reflexivity].
  rewrite IH. destruct (run_len (in_class k) s); reflexivity.
Qed.

Lemma match_len_one_cons k r c s :
  match_len (One k :: r) (c :: s) =
  if in_class k c then S <$> match_len r s else None.
Proof. reflexivity. Qed.

Lemma match_len_one_nil k r : match_len (One k :: r) [] = None.
Proof. reflexivity. Qed.

Lemma match_len_url s :
  match_len URL_RE s =
  if url_starts s
  then Some (4 + run_len (fun c => negb (isspace c)) (skipn 4 s))%nat
  else None.
Proof.
  unfold url_starts, URL_RE. change (pystr "http") with [104; 116; 116; 112].
  destruct s as [|c1 [|c2 [|c3 [|c4 s]]]];
    rewrite ?match_len_one_cons, ?match_len_one_nil;
    cbn [in_class starts_with skipn];
    repeat (match goal with
            | |- context [N.eqb ?a ?b] => destruct (N.eqb a b)
            end; cbn [andb fmap option_fmap option_map]);
    try reflexivity.
  rewrite match_len_plus. change (skipn 0 s) with s.
  destruct s as [|c s]; [reflexivity|]. cbn [run_len in_class].
  destruct (isspace c); reflexivity.
Qed.

(** Where a URL is found, removing the URLs shortens the text. *)
Lemma re_sub_url_shrinks s :
  re_search URL_RE s = true ->
  (length (re_sub URL_RE [] s) < length s)%nat.
Proof.
  unfold re_sub. induction s as [|c s IH]; intros H; [discriminate|].
  rewrite re_sub_from_0_cons. cbn [re_search] in H.
  rewrite match_len_url in *. destruct (url_starts (c :: s)).
  - cbn [Nat.add app].
    pose proof (re_sub_from_length URL_RE [] s
                  (S (S (S (run_len (fun c0 => negb (isspace c0))
                                    (skipn 4 (c :: s))))))) as Hlen.
    simpl in Hlen |- *. lia.
  - specialize (IH H). simpl. lia.
Qed.

(** *** Each substitution of [clean_text] is the step the specification names *)

Lemma re_sub_url_fuel f : forall s, (length s <= f)%nat ->
  re_sub_from 0 URL_RE [] s = remove_urls_fuel f s.
Proof.
  induction f as [|f IH]; intros s Hlen.
  - destruct s; [reflexivity | simpl in Hlen; lia].
  - destruct s as [|c s]; [reflexivity|].
    rewrite re_sub_from_0_cons, match_len_url.
    cbn [remove_urls_fuel]. destruct (url_starts (c :: s)).
    + cbn [Nat.add app]. rewrite re_sub_from_skip.
      change (skipn 4 (c :: s)) with (skipn 3 s).
      set (p := fun c0 => negb (isspace c0)). set (x := skipn 3 s).
      replace (skipn (S (S (S (run_len p x)))) s) with (skipn (run_len p x) x)
        by (unfold x; rewrite skipn_skipn; f_equal; lia).
      rewrite skipn_run_len. apply IH.
      pose proof (drop_while_length p x) as H.
      unfold x in H at 2. rewrite length_skipn in H. simpl in Hlen. lia.
    + f_equal. apply IH. simpl in Hlen. lia.
Qed.

Lemma re_sub_url s : re_sub URL_RE [] s = remove_urls s.
Proof. apply re_sub_url_fuel. reflexivity. Qed.

Lemma re_sub_punct s : re_sub PUNCT_RE [] s = remove_punctuation s.
Proof.
  unfold re_sub, remove_punctuation. induction s as [|c s IH]; [reflexivity|].
  rewrite re_sub_from_0_cons. simpl.
  destruct (isword c || isspace c); simpl; rewrite IH; reflexivity.
Qed.

Lemma re_sub_spaces_both s :
  re_sub_from 0 SPACES_RE [SPACE] s = squeeze false s /\
  re_sub_from (run_len isspace s) SPACES_RE [SPACE] s = squeeze true s.
Proof.
  induction s as [|c s [IH0 IH1]]; [split; reflexivity|].
  assert (re_sub_from 0 SPACES_RE [SPACE] (c :: s) = squeeze false (c :: s)) as H0.
  { rewrite re_sub_from_0_cons. unfold SPACES_RE. rewrite match_len_plus.
    cbn [run_len in_class squeeze]. destruct (isspace c).
    - cbn [app]. f_equal. exact IH1.
    - f_equal. exact IH0. }
  split; [exact H0|].
  cbn [run_len squeeze]. destruct (isspace c) eqn:E.
  - exact IH1.
  - rewrite H0. cbn [squeeze]. rewrite E. reflexivity.
Qed.

Lemma re_sub_spaces s : re_sub SPACES_RE [SPACE] s = collapse_whitespace s.
Proof. apply re_sub_spaces_both. Qed.

Lemma clean_text_normalize t : clean_text t = normalize t.
Proof.
  unfold clean_text, normalize.
  rewrite re_sub_url, re_sub_punct, re_sub_spaces. reflexivity.
Qed.

End EngineFacts.

(** ** On ASCII text the Unicode table does not matter *)

Section AsciiIndependence.
Variables U V : Unicode.

Lemma in_class_ascii k c :
  ascii_class k = true -> is_ascii c = true ->
  @in_class U k c = @in_class V k c.
Proof.
  intros Hk Hc. destruct k; simpl in *; try reflexivity;
    rewrite ?(@isspace_ascii U), ?(@isspace_ascii V),
            ?(@isword_ascii U), ?(@isword_ascii V),
            ?(@ieq_ascii U), ?(@ieq_ascii V) by assumption; reflexivity.
Qed.

Lemma match_len_plus_cons (W : Unicode) k r c s :
  @match_len W (Plus k :: r) (c :: s) =
  if @in_class W k c
  then match @match_len W (Plus k :: r) s with
       | Some n => Some (S n)
       | None => S <$> @match_len W r s
       end
  else None.
Proof. reflexivity. Qed.

Lemma match_len_ascii r : forall s,
  forallb ascii_item r = true -> forallb is_ascii s = true ->
  @match_len U r s = @match_len V r s.
Proof.
  induction r as [|[k|k] r IH]; intros s Hr Hs; [reflexivity| |];
    simpl in Hr; apply andb_prop in Hr as [Hk Hr].
  - destruct s as [|c s]; [reflexivity|].
    simpl in Hs. apply andb_prop in Hs as [Hc Hs].
    rewrite !match_len_one_cons, (in_class_ascii k c Hk Hc), (IH s Hr Hs).
    reflexivity.
  - induction s as [|c s IHs]; [reflexivity|].
    simpl in Hs. apply andb_prop in Hs as [Hc Hs].
    rewrite !match_len_plus_cons, (in_class_ascii k c Hk Hc), (IHs Hs), (IH s Hr Hs).
    reflexivity.
Qed.

Lemma re_sub_from_ascii r repl s : forall n,
  forallb ascii_item r = true -> forallb is_ascii s = true ->
  @re_sub_from U n r repl s = @re_sub_from V n r repl s.
Proof.
  intros n Hr. revert n. induction s as [|c s IH]; intros n Hs; [reflexivity|].
  destruct n as [|n].
  - rewrite !re_sub_from_0_cons, (match_len_ascii r (c :: s) Hr Hs).
    simpl in Hs. apply andb_prop in Hs as [_ Hs].
    destruct (@match_len V r (c :: s)) as [[|m]|]; rewrite ?IH by assumption; reflexivity.
  - simpl in Hs. apply andb_prop in Hs as [_ Hs]. simpl. apply IH, Hs.
Qed.

Lemma re_search_ascii r s :
  forallb ascii_item r = true -> forallb is_ascii s = true ->
  @re_search U r s = @re_search V r s.
Proof.
  intros Hr. induction s as [|c s IH]; intros Hs.
  - simpl. rewrite (match_len_ascii r [] Hr Hs). reflexivity.
  - cbn [re_search]. rewrite (match_len_ascii r (c :: s) Hr Hs).
    simpl in Hs. apply andb_prop in Hs as [_ Hs]. rewrite (IH Hs). reflexivity.
Qed.

Lemma clean_text_ascii t :
  forallb is_ascii t = true -> @clean_text U t = @clean_text V t.
Proof.
  intros Ht. unfold clean_text, re_sub.
  pose proof (re_sub_from_forallb (U := V) is_ascii URL_RE [] t 0 eq_refl Ht) as H1.
  pose proof (re_sub_from_forallb (U := V) is_ascii PUNCT_RE [] _ 0 eq_refl H1) as H2.
  pose proof (re_sub_from_forallb (U := V) is_ascii SPACES_RE [SPACE] _ 0 eq_refl H2) as H3.
  rewrite (re_sub_from_ascii URL_RE [] t 0 eq_refl Ht).
  rewrite (re_sub_from_ascii PUNCT_RE [] _ 0 eq_refl H1).
  rewrite (re_sub_from_ascii SPACES_RE [SPACE] _ 0 eq_refl H2).
  rewrite !lower_ascii by exact H3. reflexivity.
Qed.

End AsciiIndependence.

(** ** The shape of normalized text *)

Section Normalized.
Context {U : Unicode}.

Lemma isspace_SPACE : isspace SPACE = true.
Proof. rewrite isspace_ascii; reflexivity. Qed.

Lemma squeeze_squeezed s : forall b, squeezed b (squeeze b s) = true.
Proof.
  induction s as [|c s IH]; intros b; [reflexivity|].
  cbn [squeeze]. destruct (isspace c) eqn:E.
  - destruct b; [apply IH|].
    cbn [squeezed]. rewrite isspace_SPACE, IH. reflexivity.
  - cbn [squeezed]. rewrite E. apply IH.
Qed.

Lemma squeezed_fixed s : forall b, squeezed b s = true -> squeeze b s = s.
Proof.
  induction s as [|c s IH]; intros b H; [reflexivity|].
  cbn [squeeze squeezed] in *. destruct (isspace c).
  - apply andb_prop in H as [[Hb Hc]%andb_prop Hs].
    destruct b; [discriminate|]. apply N.eqb_eq in Hc. subst c.
    f_equal. exact (IH true Hs).
  - f_equal. exact (IH false H).
Qed.

Lemma squeezed_map_lower s : forall b,
  forallb is_ascii s = true -> squeezed b s = true ->
  squeezed b (map ascii_lower s) = true.
Proof.
  induction s as [|c s IH]; intros b Ha H; [reflexivity|].
  simpl in Ha. apply andb_prop in Ha as [Hc Ha].
  cbn [map squeezed] in *.
  rewrite (isspace_ascii _ (ascii_lower_ascii c Hc)), ascii_isspace_lower,
    <- (isspace_ascii c Hc).
  destruct (isspace c) eqn:E.
  - apply andb_prop in H as [[Hb Hsp]%andb_prop Hs].
    rewrite Hb, (IH true Ha Hs). apply N.eqb_eq in Hsp. subst c. reflexivity.
  - exact (IH false Ha H).
Qed.

Lemma remove_punctuation_kept s : forallb kept (remove_punctuation s) = true.
Proof.
  unfold remove_punctuation. induction s as [|c s IH]; [reflexivity|].
  simpl. destruct (isword c || isspace c) eqn:E; [|exact IH].
  simpl. unfold kept at 1. rewrite E. exact IH.
Qed.

Lemma kept_fixed s : forallb kept s = true -> remove_punctuation s = s.
Proof.
  unfold remove_punctuation. induction s as [|c s IH]; [reflexivity|].
  simpl. intros [Hc Hs]%andb_prop. unfold kept in Hc. rewrite Hc.
  f_equal. exact (IH Hs).
Qed.

Lemma kept_map_lower s :
  forallb is_ascii s = true -> forallb kept s = true ->
  forallb kept (map ascii_lower s) = true.
Proof.
  induction s as [|c s IH]; [reflexivity|]. simpl.
  intros [Hc Ha]%andb_prop [Hk Hs]%andb_prop.
  rewrite (IH Ha Hs), andb_true_r. unfold kept in *.
  rewrite (isspace_ascii _ (ascii_lower_ascii c Hc)), ascii_isspace_lower,
    (isword_ascii _ (ascii_lower_ascii c Hc)), ascii_isword_lower,
    <- (isspace_ascii c Hc), <- (isword_ascii c Hc).
  exact Hk.
Qed.

Lemma map_lower_idem (s : str) :
  map ascii_lower (map ascii_lower s) = map ascii_lower s.
Proof.
  rewrite map_map. apply map_ext. intros c. apply ascii_lower_idem.
Qed.

(** Text that is already lower-case ASCII, free of punctuation and of
    repeated white space, and in which no URL starts, is left as it is. *)
Lemma clean_text_fixed s :
  forallb is_ascii s = true ->
  re_search URL_RE s = false ->
  forallb kept s = true ->
  squeezed false s = true ->
  map ascii_lower s = s ->
  clean_text s = s.
Proof.
  intros Ha Hurl Hk Hsq Hlow. unfold clean_text.
  rewrite (re_sub_no_match _ _ _ Hurl), re_sub_punct, (kept_fixed _ Hk),
    re_sub_spaces.
  unfold collapse_whitespace. rewrite (squeezed_fixed _ _ Hsq).
  rewrite (lower_ascii _ Ha). exact Hlow.
Qed.

(** Text in which a URL starts is shortened. *)
Lemma clean_text_shrinks s :
  forallb is_ascii s = true ->
  re_search URL_RE s = true ->
  (length (clean_text s) < length s)%nat.
Proof.
  intros Ha Hurl. unfold clean_text.
  pose proof (re_sub_url_shrinks s Hurl) as L1.
  pose proof (re_sub_from_forallb is_ascii URL_RE [] s 0 eq_refl Ha) as A1.
  fold (re_sub URL_RE [] s) in A1.
  pose proof (re_sub_from_length PUNCT_RE [] (re_sub URL_RE [] s) 0
                ltac:(simpl; lia)) as L2.
  pose proof (re_sub_from_forallb is_ascii PUNCT_RE [] _ 0 eq_refl A1) as A2.
  fold (re_sub PUNCT_RE [] (re_sub URL_RE [] s)) in L2, A2.
  pose proof (re_sub_from_length SPACES_RE [SPACE]
                (re_sub PUNCT_RE [] (re_sub URL_RE [] s)) 0
                ltac:(simpl; lia)) as L3.
  pose proof (re_sub_from_forallb is_ascii SPACES_RE [SPACE] _ 0 eq_refl A2) as A3.
  fold (re_sub SPACES_RE [SPACE] (re_sub PUNCT_RE [] (re_sub URL_RE [] s)))
    in L3, A3.
  rewrite (lower_ascii _ A3), length_map. lia.
Qed.

(** What [clean_text] returns on ASCII text. *)
Lemma clean_text_shape t :
  forallb is_ascii t = true ->
  let s := clean_text t in
  forallb is_ascii s = true /\ forallb kept s = true /\
  squeezed false s = true /\ map ascii_lower s = s.
Proof.
  intros Ht. cbv zeta. unfold clean_text.
  pose proof (re_sub_from_forallb is_ascii URL_RE [] t 0 eq_refl Ht) as A1.
  fold (re_sub URL_RE [] t) in A1.
  pose proof (re_sub_from_forallb is_ascii PUNCT_RE [] _ 0 eq_refl A1) as A2.
  fold (re_sub PUNCT_RE [] (re_sub URL_RE [] t)) in A2.
  pose proof (re_sub_from_forallb is_ascii SPACES_RE [SPACE] _ 0 eq_refl A2) as A3.
  fold (re_sub SPACES_RE [SPACE] (re_sub PUNCT_RE [] (re_sub URL_RE [] t))) in A3.
  assert (forallb kept [SPACE] = true) as Ksp.
  { simpl. unfold kept. rewrite isspace_SPACE, orb_true_r. reflexivity. }
  pose proof (remove_punctuation_kept (re_sub URL_RE [] t)) as K2.
  rewrite <- re_sub_punct in K2.
  pose proof (re_sub_from_forallb kept SPACES_RE [SPACE] _ 0 Ksp K2) as K3.
  fold (re_sub SPACES_RE [SPACE] (re_sub PUNCT_RE [] (re_sub URL_RE [] t))) in K3.
  set (s3 := re_sub SPACES_RE [SPACE] (re_sub PUNCT_RE [] (re_sub URL_RE [] t))) in *.
  assert (squeezed false s3 = true) as Q3.
  { unfold s3. rewrite re_sub_spaces. apply squeeze_squeezed. }
  rewrite (lower_ascii _ A3).
  split; [exact (forallb_ascii_map_lower _ A3)|].
  split; [exact (kept_map_lower _ A3 K3)|].
  split; [exact (squeezed_map_lower _ _ A3 Q3)|].
  apply map_lower_idem.
Qed.

End Normalized.

(** ** Text normalization: the claims *)

(** C5. For every input string, [clean_text] performs exactly the four steps
    in order: it removes the URLs that begin with "http", removes every
    character that is neither a word character nor white space, collapses
    each run of white space to one ASCII space without trimming, and
    lower-cases.  It is a total function, so it never fails; and on
    "Check this! https://x.co Amazing!!!" it returns "check this amazing",
    whatever the Unicode table. *)
Theorem clean_text_four_steps :
  (forall (U : Unicode) (t : str),
     clean_text t
     = lower (collapse_whitespace (remove_punctuation (remove_urls t))))
  /\ (forall U : Unicode,
        clean_text (pystr "Check this! https://x.co Amazing!!!")
        = pystr "check this amazing")
  /\ (forall U : Unicode, clean_text (pystr "  Hi!  ") = pystr " hi ").
Proof.
  split; [intros U t; apply clean_text_normalize|].
  split; intros U; rewrite (clean_text_ascii U table) by reflexivity;
    vm_compute; reflexivity.
Qed.

(** C3, refuted: "HTTPx" is normalized to "httpx", in which the second pass
    finds a URL to remove. *)
Lemma clean_text_not_idempotent :
  @clean_text table (@clean_text table (pystr "HTTPx"))
  <> @clean_text table (pystr "HTTPx").
Proof. vm_compute. discriminate. Qed.

(** Outside ASCII, lower-casing itself can undo the first pass: U+0130
    becomes "i" followed by U+0307, which the second pass removes. *)
Example clean_text_dotted_capital_I :
  @clean_text table [304] = [105; 775]
  /\ @clean_text table [105; 775] = [105].
Proof. split; vm_compute; reflexivity. Qed.

(** C3, amended. For every ASCII text [t],
    [clean_text (clean_text t) = clean_text t] holds exactly when the
    normalized text [clean_text t] contains no "http" followed by a
    character that is not white space. *)
Theorem clean_text_idempotent_iff_no_url (U : Unicode) (t : str) :
  forallb is_ascii t = true ->
  (clean_text (clean_text t) = clean_text t
   <-> re_search URL_RE (clean_text t) = false).
Proof.
  intros Ht.
  destruct (clean_text_shape t Ht) as (Ha & Hk & Hsq & Hlow).
  split.
  - intros Heq. destruct (re_search URL_RE (clean_text t)) eqn:E; [|reflexivity].
    pose proof (clean_text_shrinks _ Ha E) as Hlt. rewrite Heq in Hlt. lia.
  - intros Hurl. apply clean_text_fixed; assumption.
Qed.

Lemma clean_text_idempotent_iff_no_url_witness :
  @clean_text table
    (@clean_text table (pystr "Check this! https://x.co Amazing!!!"))
  = @clean_text table (pystr "Check this! https://x.co Amazing!!!")
  <-> @re_search table URL_RE
        (@clean_text table (pystr "Check this! https://x.co Amazing!!!"))
      = false.
Proof.
  apply (clean_text_idempotent_iff_no_url table
           (pystr "Check this! https://x.co Amazing!!!")).
  reflexivity.
Defined.

(** *** Substrings *)

Lemma starts_with_spec p : forall s,
  starts_with p s = true <-> exists post, s = p ++ post.
Proof.
  induction p as [|a p IH]; intros s; simpl.
  - split; [intros _; exists s; reflexivity | reflexivity].
  - destruct s as [|b s].
    + split; [discriminate | intros [post H]; discriminate].
    + rewrite andb_true_iff, N.eqb_eq, IH. split.
      * intros [-> [post ->]]. exists post. reflexivity.
      * intros [post H]. injection H as -> ->. split; [reflexivity | eauto].
Qed.

Lemma str_in_spec p s :
  str_in p s = true <-> exists pre post, s = pre ++ p ++ post.
Proof.
  induction s as [|c s IH]; simpl.
  - rewrite orb_false_r, starts_with_spec. split.
    + intros [post H]. exists [], post. exact H.
    + intros (pre & post & H). destruct pre as [|x pre]; [|discriminate].
      exists post. exact H.
  - rewrite orb_true_iff, starts_with_spec, IH. split.
    + intros [[post H] | (pre & post & H)].
      * exists [], post. exact H.
      * exists (c :: pre), post. rewrite H. reflexivity.
    + intros (pre & post & H). destruct pre as [|x pre].
      * left. exists post. exact H.
      * right. injection H as -> ->. eauto.
Qed.

Lemma filter_nonempty {A} (f : A -> bool) (l : list A) :
  List.filter f l <> [] <-> exists x, In x l /\ f x = true.
Proof.
  split.
  - destruct (List.filter f l) as [|x r] eqn:E; [congruence|]. intros _.
    exists x. apply filter_In. rewrite E. left. reflexivity.
  - intros (x & Hx & Hf) E.
    assert (In x (List.filter f l)) as H by (apply filter_In; auto).
    rewrite E in H. exact H.
Qed.

Section ClickbaitFacts.
Context {U : Unicode}.

Lemma detect_clickbait_iff title :
  detect_clickbait_in_title title = pystr "Clickbait" <->
  exists word, In word CLICKBAIT_WORDS /\ str_in word (lower title) = true.
Proof.
  unfold detect_clickbait_in_title. rewrite <- filter_nonempty.
  destruct (List.filter _ CLICKBAIT_WORDS); split; try congruence; discriminate.
Qed.

Lemma detect_clickbait_two_labels title :
  detect_clickbait_in_title title = pystr "Clickbait" \/
  detect_clickbait_in_title title = pystr "Not Clickbait".
Proof.
  unfold detect_clickbait_in_title.
  destruct (List.filter _ CLICKBAIT_WORDS); auto.
Qed.

End ClickbaitFacts.

Lemma detect_clickbait_ascii (U V : Unicode) title :
  forallb is_ascii title = true ->
  @detect_clickbait_in_title U title = @detect_clickbait_in_title V title.
Proof.
  intros H. unfold detect_clickbait_in_title. rewrite !lower_ascii by exact H.
  reflexivity.
Qed.

(** The web front end never reports clickbait: neither result of the
    classifier contains "likely clickbait". *)
Lemma web_clickbait_label_constant (U : Unicode) title :
  web_clickbait_label title = pystr "Not Clickbait".
Proof.
  unfold web_clickbait_label.
  destruct (detect_clickbait_two_labels title) as [-> | ->];
    rewrite lower_ascii by reflexivity; reflexivity.
Qed.

(** ** Clickbait detection: the claims *)

(** C4. The lexicon has twelve phrases; for every title the classifier
    answers "Clickbait" exactly when some phrase of the lexicon occurs in the
    lower-cased title as a literal substring, and "Not Clickbait" otherwise;
    no word boundary is needed: "guaranteed" inside "Megaguaranteedly"
    counts. *)
Theorem clickbait_iff_lexicon_substring :
  length CLICKBAIT_WORDS = 12%nat
  /\ (forall (U : Unicode) (title : str),
        (detect_clickbait_in_title title = pystr "Clickbait" <->
         exists word pre post,
           In word CLICKBAIT_WORDS /\ lower title = pre ++ word ++ post)
        /\ (detect_clickbait_in_title title <> pystr "Clickbait" ->
            detect_clickbait_in_title title = pystr "Not Clickbait"))
  /\ (forall U : Unicode,
        detect_clickbait_in_title (pystr "Megaguaranteedly so")
        = pystr "Clickbait").
Proof.
  split; [reflexivity|]. split.
  - intros U title. split.
    + rewrite detect_clickbait_iff. split.
      * intros (word & Hin & (pre & post & H)%str_in_spec). eauto.
      * intros (word & pre & post & Hin & H). exists word. split; [exact Hin|].
        apply str_in_spec. eauto.
    + destruct (detect_clickbait_two_labels title); tauto.
  - intros U. rewrite (detect_clickbait_ascii U table) by reflexivity.
    vm_compute. reflexivity.
Qed.

(** C9, refuted: "ſecret" is its own lower case and contains no phrase of
    the lexicon, while its upper case is "SECRET". *)
Lemma clickbait_upper_differs :
  @detect_clickbait_in_title table long_s_secret
  <> @detect_clickbait_in_title table (@upper table long_s_secret).
Proof. vm_compute. discriminate. Qed.

(** C9, amended. For every title made of ASCII characters, the classifier
    gives the title and its upper case the same label. *)
Theorem clickbait_case_insensitive_ascii (U : Unicode) (title : str) :
  forallb is_ascii title = true ->
  detect_clickbait_in_title title = detect_clickbait_in_title (upper title).
Proof.
  intros H. unfold detect_clickbait_in_title.
  rewrite (upper_ascii _ H), (lower_ascii _ H),
    (lower_ascii _ (forallb_ascii_map_upper _ H)), map_map.
  rewrite (map_ext _ _ ascii_lower_upper). reflexivity.
Qed.

Lemma clickbait_case_insensitive_ascii_witness :
  @detect_clickbait_in_title table (pystr "You won't believe this")
  = @detect_clickbait_in_title table (@upper table (pystr "You won't believe this")).
Proof.
  apply (clickbait_case_insensitive_ascii table (pystr "You won't believe this")).
  reflexivity.
Defined.

(** C2, at the title "Shocking news": the terminal front end labels it
    "Clickbait", the web front end "Not Clickbait". *)
Theorem front_ends_disagree_on_clickbait :
  forall U : Unicode,
    terminal_clickbait_label (pystr "Shocking news") = pystr "Clickbait" /\
    web_clickbait_label (pystr "Shocking news") = pystr "Not Clickbait".
Proof.
  intros U. split; [|apply web_clickbait_label_constant].
  unfold terminal_clickbait_label.
  rewrite (detect_clickbait_ascii U table) by reflexivity.
  vm_compute. reflexivity.
Qed.

(** ** Sentiment analysis: facts *)

Lemma round_half_even_bounds (q : Q) (m : Z) :
  (0 <= q)%Q -> (q <= inject_Z m)%Q ->
  (0 <= round_half_even q <= m)%Z.
Proof.
  destruct q as [n d]. unfold Qle, round_half_even, inject_Z. simpl.
  intros H0 Hm.
  pose proof (Z.div_mod n (Zpos d) ltac:(lia)) as Hdm.
  pose proof (Z.mod_pos_bound n (Zpos d) ltac:(lia)) as Hr.
  set (f := (n / Zpos d)%Z) in *. set (r := (n mod Zpos d)%Z) in *.
  assert (0 <= f)%Z as Hf by (apply Z.div_pos; lia).
  assert (f <= m)%Z as Hfm by nia.
  assert (f = m -> r = 0)%Z as Hfull by nia.
  destruct (2 * r ?= Zpos d)%Z eqn:E.
  - apply Z.compare_eq in E. destruct (Z.even f); [lia|].
    assert (f <> m) by (intros ->%Hfull; lia). lia.
  - lia.
  - apply Z.compare_gt_iff in E.
    assert (f <> m) by (intros ->%Hfull; lia). lia.
Qed.

Lemma round2_bounds (x : Q) : (0 <= x <= 1)%Q -> (0 <= round2 x <= 1)%Q.
Proof.
  intros [H0 H1].
  destruct (round_half_even_bounds (x * 100) 100) as [Hl Hu].
  - apply Qmult_le_0_compat; [exact H0 | discriminate].
  - change (inject_Z 100) with (1 * 100)%Q.
    apply Qmult_le_compat_r; [exact H1 | discriminate].
  - unfold round2, Qle. simpl. lia.
Qed.

Lemma ascii_lower_small c : ascii_lower c < 128 -> is_ascii c = true.
Proof. intros H. ascii_cases. Qed.

Lemma map_lower_ascii_inv (s t : str) :
  map ascii_lower s = t -> forallb is_ascii t = true -> forallb is_ascii s = true.
Proof.
  intros <-. induction s as [|c s IH]; simpl; [reflexivity|].
  intros [Hc Hs]%andb_prop. rewrite (IH Hs), andb_true_r.
  apply ascii_lower_small, is_ascii_lt, Hc.
Qed.

(** Capitalizing any ASCII casing of a lower-case ASCII word. *)
Lemma capitalize_casing (U : Unicode) (s t : str) :
  map ascii_lower s = t -> forallb is_ascii t = true ->
  capitalize s = match t with
                 | [] => []
                 | c :: r => ascii_upper c :: r
                 end.
Proof.
  intros Hst Ht. rewrite (capitalize_ascii _ (map_lower_ascii_inv _ _ Hst Ht)).
  subst t. destruct s as [|c s]; [reflexivity|]. simpl.
  f_equal. ascii_cases.
Qed.

(** ** Sentiment analysis: the claims *)

(** C1, refuted: the raw label NEUTRAL comes back as the third label
    "Neutral"; nothing rejects it. *)
Lemma sentiment_third_label :
  let r := @analyze_article_with_local_llm table neutral_model
             (pystr "The council met on Tuesday.") in
  label r = pystr "Neutral"
  /\ ~ (label r = pystr "Positive" \/ label r = pystr "Negative").
Proof.
  cbv zeta. split; [vm_compute; reflexivity|].
  intros [H | H]; vm_compute in H; discriminate.
Qed.

(** C1, amended. For every text, the classifier returns the raw label
    capitalized and the raw score rounded to two decimals, and raises no
    error of its own; when the raw label is POSITIVE or NEGATIVE in any
    casing and the raw score lies in [0,1], the label returned is exactly
    "Positive" or "Negative" and the score returned lies in [0,1]. *)
Theorem sentiment_binary_model
    (U : Unicode) (classifier : str -> raw_result) (text : str) :
  let raw := classifier (firstn 512 text) in
  let r := analyze_article_with_local_llm classifier text in
  (label r = capitalize (raw_label raw) /\ score r = round2 (raw_score raw))
  /\ ((map ascii_lower (raw_label raw) = pystr "positive" \/
       map ascii_lower (raw_label raw) = pystr "negative") ->
      (0 <= raw_score raw <= 1)%Q ->
      (label r = pystr "Positive" \/ label r = pystr "Negative")
      /\ (0 <= score r <= 1)%Q).
Proof.
  cbv zeta. split; [split; reflexivity|].
  intros Hl Hs. split; [|apply round2_bounds, Hs].
  unfold analyze_article_with_local_llm. cbn [label].
  destruct Hl as [Hl | Hl]; [left | right];
    rewrite (capitalize_casing U _ _ Hl eq_refl); reflexivity.
Qed.

Lemma sentiment_binary_model_witness :
  let r := @analyze_article_with_local_llm table positive_model
             (pystr "This is great news!") in
  (label r = pystr "Positive" \/ label r = pystr "Negative")
  /\ (0 <= score r <= 1)%Q.
Proof.
  apply (sentiment_binary_model table positive_model (pystr "This is great news!")).
  - left. reflexivity.
  - split; discriminate.
Defined.

Example round2_example : round2 (98765 # 100000)%Q = (99 # 100)%Q.
Proof. reflexivity. Qed.

Example round2_tie_even : round2 (1 # 8)%Q = (12 # 100)%Q.
Proof. reflexivity. Qed.

(** ** Building records: the claims *)

Lemma get_or_empty_description (art : article) :
  (match art !! "description"%string with
   | Some (Scalar _) | None => true
   | _ => false
   end) = true ->
  get_or_empty art "description"%string = Scalar (JStr (description_text art)).
Proof.
  unfold get_or_empty, description_text.
  destruct (art !! "description"%string) as [[[|s]|d]|]; try discriminate;
    intros _; try reflexivity.
  simpl. case_bool_decide; simpl; [subst s|]; reflexivity.
Qed.

(** C7, refuted: with the title and the source name present, building still
    fails when the publication time is absent. *)
Lemma build_record_needs_publishedAt :
  undated_article !! "title"%string <> None
  /\ source_name undated_article <> None
  /\ @build_record table undated_article = inl (KeyError "publishedAt").
Proof. vm_compute. repeat split; discriminate. Qed.

(** C7, amended. For every article whose present fields have the types of
    the provider's schema, building the record fails with a missing-key
    error exactly when the title, the source name (the source or its name)
    or the publication time is absent, and fails in no other way; an absent
    description is read as the empty string; and the text of the record
    built is [clean_text (title + " " + description)]. *)
Theorem build_record_missing_key (U : Unicode) (art : article) :
  well_typed art = true ->
  ((exists k, build_record art = inl (KeyError k)) <->
   art !! "title"%string = None \/ source_name art = None
   \/ art !! "publishedAt"%string = None)
  /\ (forall e, build_record art = inl e -> exists k, e = KeyError k)
  /\ (forall r, build_record art = inr r ->
      exists t, art !! "title"%string = Some (Scalar (JStr t))
                /\ r_text r = clean_text (t ++ [SPACE] ++ description_text art)).
Proof.
  unfold well_typed. intros [[Ht Hd]%andb_prop Hs]%andb_prop.
  unfold build_record, source_name, getitem.
  rewrite (get_or_empty_description art Hd).
  destruct (art !! "title"%string) as [[[|t]|dt]|]; try discriminate; simpl.
  2:{ split; [split; eauto|]. split; [intros e [= <-]; eauto | discriminate]. }
  destruct (art !! "source"%string) as [[sc|d]|]; try discriminate; simpl.
  2:{ split; [split; eauto|]. split; [intros e [= <-]; eauto | discriminate]. }
  unfold getitem. destruct (d !! "name"%string) as [name|]; simpl.
  2:{ split; [split; eauto|]. split; [intros e [= <-]; eauto | discriminate]. }
  destruct (art !! "publishedAt"%string) as [p|]; simpl.
  2:{ split; [split; eauto|]. split; [intros e [= <-]; eauto | discriminate]. }
  split; [|split].
  - split; [intros [k [=]] | intros [[=] | [[=] | [=]]]].
  - intros e [=].
  - intros r [= <-]. exists t. split; [reflexivity|]. simpl.
    rewrite <- app_assoc. reflexivity.
Qed.

Lemma build_record_missing_key_witness :
  ((exists k, @build_record table docstring_article = inl (KeyError k)) <->
   docstring_article !! "title"%string = None
   \/ source_name docstring_article = None
   \/ docstring_article !! "publishedAt"%string = None)
  /\ (forall e, @build_record table docstring_article = inl e ->
      exists k, e = KeyError k)
  /\ (forall r, @build_record table docstring_article = inr r ->
      exists t, docstring_article !! "title"%string = Some (Scalar (JStr t))
                /\ r_text r
                   = @clean_text table
                       (t ++ [SPACE] ++ description_text docstring_article)).
Proof.
  apply (build_record_missing_key table docstring_article).
  vm_compute. reflexivity.
Defined.

Example build_record_docstring :
  @build_record table docstring_article
  = inr {| r_source := JStr (pystr "CNN");
           r_title := Scalar (JStr (pystr "News Title"));
           r_text := pystr "news title news desc";
           r_publishedAt := Scalar (JStr (pystr "2025-01-01")) |}.
Proof. vm_compute. reflexivity. Qed.

(** ** The keyword filter: facts and the claim *)

Lemma re_compile_literal (p : str) :
  existsb is_special p = false -> re_compile_ignorecase p = Some (literals p).
Proof.
  induction p as [|c p IH]; [reflexivity|]. simpl existsb.
  intros [Hc Hp]%orb_false_elim. cbn [re_compile_ignorecase].
  assert ((c =? DOT) = false) as ->.
  { unfold is_special in Hc. simpl in Hc. apply orb_false_elim in Hc as [Hc _].
    exact Hc. }
  rewrite Hc, (IH Hp). reflexivity.
Qed.

Lemma re_compile_ascii (p : str) : forall r,
  forallb is_ascii p = true -> re_compile_ignorecase p = Some r ->
  forallb ascii_item r = true.
Proof.
  induction p as [|c p IH]; intros r Hp H.
  - injection H as <-. reflexivity.
  - simpl in Hp. apply andb_prop in Hp as [Hc Hp]. cbn [re_compile_ignorecase] in H.
    destruct (re_compile_ignorecase p) as [r'|];
      destruct (c =? DOT); [| destruct (is_special c) | | destruct (is_special c)];
      try discriminate; injection H as <-; simpl; rewrite ?Hc; exact (IH r' Hp eq_refl).
Qed.

Section FilterFacts.
Context {U : Unicode}.

(** A literal pattern matches where the lower-cased pattern starts the
    lower-cased text. *)
Lemma match_len_literals (p : str) : forall s,
  forallb is_ascii p = true -> forallb is_ascii s = true ->
  match_len (literals p) s =
  if starts_with (map ascii_lower p) (map ascii_lower s)
  then Some (length p) else None.
Proof.
  induction p as [|a p IH]; intros s Hp Hs; [reflexivity|].
  simpl in Hp. apply andb_prop in Hp as [Ha Hp].
  destruct s as [|c s]; [reflexivity|].
  simpl in Hs. apply andb_prop in Hs as [Hc Hs].
  cbn [literals map]. rewrite match_len_one_cons. fold (literals p).
  cbn [in_class starts_with]. rewrite (ieq_ascii a c Ha Hc), (IH s Hp Hs).
  destruct (ascii_lower a =? ascii_lower c); [|reflexivity].
  destruct (starts_with _ _); reflexivity.
Qed.

Lemma re_search_literals (p s : str) :
  forallb is_ascii p = true -> forallb is_ascii s = true ->
  re_search (literals p) s = str_in (map ascii_lower p) (map ascii_lower s).
Proof.
  intros Hp. induction s as [|c s IH]; intros Hs.
  - cbn [re_search]. rewrite (match_len_literals p [] Hp Hs). simpl.
    destruct (starts_with _ _); reflexivity.
  - cbn [re_search]. rewrite (match_len_literals p (c :: s) Hp Hs).
    simpl in Hs. apply andb_prop in Hs as [_ Hs]. rewrite (IH Hs).
    cbn [map str_in]. destruct (starts_with _ _); reflexivity.
Qed.

(** For a topic without special characters, on ASCII text, the filter is
    the substring test. *)
Lemma keep_row_literal (topic : str) (row : record) (title : str) :
  existsb is_special topic = false ->
  forallb is_ascii topic = true ->
  r_title row = Scalar (JStr title) ->
  forallb is_ascii title = true ->
  forallb is_ascii (r_text row) = true ->
  keep_row topic row = Some (topic_occurs topic row).
Proof.
  intros Hsp Ha Ht Hta Htx.
  unfold keep_row, str_contains_nocase, topic_occurs, occurs_nocase.
  rewrite Ht, (re_compile_literal _ Hsp). simpl.
  rewrite (re_search_literals _ _ Ha Hta), (re_search_literals _ _ Ha Htx).
  rewrite !lower_ascii by assumption. reflexivity.
Qed.

End FilterFacts.

Lemma keep_row_ascii (U V : Unicode) (topic : str) (row : record) (title : str) :
  forallb is_ascii topic = true ->
  r_title row = Scalar (JStr title) ->
  forallb is_ascii title = true ->
  forallb is_ascii (r_text row) = true ->
  @keep_row U topic row = @keep_row V topic row.
Proof.
  intros Ha Ht Hta Htx. unfold keep_row, str_contains_nocase. rewrite Ht.
  destruct (re_compile_ignorecase topic) as [r|] eqn:E; [|reflexivity]. simpl.
  pose proof (re_compile_ascii topic r Ha E) as Hr.
  rewrite (re_search_ascii U V r _ Hr Hta), (re_search_ascii U V r _ Hr Htx).
  reflexivity.
Qed.

Example guest_row_built : @build_record table guest_article = inr guest_row.
Proof. vm_compute. reflexivity. Qed.

(** C6, at the topic "u.s" and the row built from [guest_article]: the
    topic occurs neither in the title nor in the text, yet the filter keeps
    the row, since the dot of the topic matches the "e" of "Guest". *)
Theorem keyword_filter_reads_topic_as_regex :
  forall U : Unicode,
    topic_occurs (pystr "u.s") guest_row = false
    /\ keep_row (pystr "u.s") guest_row = Some true
    /\ keyword_filter (pystr "u.s") [guest_row] = Some [guest_row].
Proof.
  intros U.
  assert (keep_row (pystr "u.s") guest_row = Some true) as Hkeep.
  { rewrite (keep_row_ascii U table _ _ (pystr "Guest list announced"))
      by reflexivity.
    vm_compute. reflexivity. }
  split; [|split; [exact Hkeep|]].
  - unfold topic_occurs, occurs_nocase. cbn [guest_row r_title r_text].
    rewrite !lower_ascii by reflexivity. vm_compute. reflexivity.
  - cbn [keyword_filter]. rewrite Hkeep. reflexivity.
Qed.

(** ** Highlighting: facts and the claim *)

Section HighlightFacts.
Context {U : Unicode}.
Variables RED base_color : str.

Lemma lower_nil : lower [] = [].
Proof. apply (lower_ascii [] eq_refl). Qed.

(** With the empty keyword the loop stays at position 0 for ever. *)
Lemma highlight_loop_empty_keyword (text : str) (fuel : nat) :
  text <> [] -> forall out,
  highlight_loop RED base_color fuel text [] (lower []) 0 out = None.
Proof.
  intros Htext. induction fuel as [|fuel IH]; intros out; [reflexivity|].
  destruct text as [|c rest]; [congruence|].
  cbn [highlight_loop lookup list_lookup]. unfold slice.
  cbn [length Nat.add Nat.sub firstn].
  unfold str_eqb. rewrite bool_decide_eq_true_2 by reflexivity.
  apply IH.
Qed.

(** With a keyword that is not empty every iteration moves forward, and
    the loop ends within [length text - i] iterations. *)
Lemma highlight_loop_terminates (text keyword kl : str) :
  keyword <> [] -> forall fuel i out,
  (length text - i < fuel)%nat ->
  exists res, highlight_loop RED base_color fuel text keyword kl i out = Some res.
Proof.
  intros Hk. assert (0 < length keyword)%nat as Hlen.
  { destruct keyword; [congruence | simpl; lia]. }
  induction fuel as [|fuel IH]; intros i out Hfuel; [lia|].
  cbn [highlight_loop]. destruct (text !! i) as [c|] eqn:E; [|eauto].
  apply lookup_lt_Some in E.
  destruct (str_eqb _ kl); apply IH; lia.
Qed.

Lemma highlight_keyword_terminates (text keyword : str) :
  keyword <> [] ->
  exists res,
    highlight_keyword RED base_color (S (length text)) text keyword = Some res.
Proof.
  intros Hk. apply highlight_loop_terminates; [exact Hk | lia].
Qed.

End HighlightFacts.

(** C10, at the text "Apple iPhone news" and the empty keyword: however
    many iterations the loop is given, it has not ended; [highlight_keyword]
    returns nothing. *)
Theorem highlight_keyword_empty_keyword_loops :
  forall (U : Unicode) (RED base_color : str) (fuel : nat),
    highlight_keyword RED base_color fuel (pystr "Apple iPhone news") [] = None.
Proof.
  intros U RED base_color fuel. unfold highlight_keyword.
  apply highlight_loop_empty_keyword. discriminate.
Qed.

Example highlight_keyword_docstring :
  @highlight_keyword table (pystr "<") (pystr ">") 18
    (pystr "Apple iPhone news") (pystr "iphone")
  = Some (pystr "Apple <iPhone> news").
Proof. vm_compute. reflexivity. Qed.

(** * Further properties *)

(** ** clean_data.py: the whole batch *)

Section BatchFacts.
Context {U : Unicode}.

Lemma articles_to_df_cons art rest :
  articles_to_df (art :: rest) =
  match build_record art with
  | inl e => inl e
  | inr r => match articles_to_df rest with
             | inl e => inl e
             | inr records => inr (r :: records)
             end
  end.
Proof.
  cbn [articles_to_df]. destruct (build_record art); [reflexivity|].
  cbn. destruct (articles_to_df rest); reflexivity.
Qed.

End BatchFacts.

(** X1. [articles_to_df] returns rows exactly when every article builds, and
    then the rows are the records of the articles, one for each, in the
    order of the articles. *)
Theorem articles_to_df_rows (U : Unicode) (articles : list article) :
  forall records,
    articles_to_df articles = inr records <->
    Forall2 (fun art r => build_record art = inr r) articles records.
Proof.
  induction articles as [|art rest IH]; intros records.
  - split.
    + intros [= <-]. constructor.
    + intros H. inversion H. reflexivity.
  - rewrite articles_to_df_cons. split.
    + destruct (build_record art) as [e|r] eqn:Eb; [discriminate|].
      destruct (articles_to_df rest) as [e|rs] eqn:Er; [discriminate|].
      intros [= <-]. constructor; [exact Eb|]. apply IH. reflexivity.
    + intros H. inversion H as [|? r ? rs Hb Hrest]; subst.
      rewrite Hb. apply IH in Hrest. rewrite Hrest. reflexivity.
Qed.

(** X2. [articles_to_df] fails exactly when some article fails to build, and
    the error it raises is the error of the first such article: the
    articles before it built, the ones after it are not looked at. *)
Theorem articles_to_df_first_error (U : Unicode) (articles : list article) :
  forall e,
    articles_to_df articles = inl e <->
    exists before art after,
      articles = before ++ art :: after
      /\ Forall (fun a => exists r, build_record a = inr r) before
      /\ build_record art = inl e.
Proof.
  induction articles as [|art rest IH]; intros e.
  - split; [discriminate|]. intros (before & a & after & H & _).
    destruct before; discriminate.
  - rewrite articles_to_df_cons. split.
    + destruct (build_record art) as [e'|r] eqn:Eb.
      * intros [= ->]. exists [], art, rest. auto.
      * destruct (articles_to_df rest) as [e'|rs] eqn:Er; [|discriminate].
        intros [= ->]. destruct (proj1 (IH e) eq_refl)
          as (before & a & after & -> & Hb & Ha).
        exists (art :: before), a, after. split; [reflexivity|].
        split; [constructor; eauto | exact Ha].
    + intros (before & a & after & Heq & Hb & Ha).
      destruct before as [|b before]; simpl in Heq; injection Heq as <- ->.
      * rewrite Ha. reflexivity.
      * inversion Hb as [|? ? [r Hr] Hb']; subst. rewrite Hr.
        rewrite (proj2 (IH e)); [reflexivity|]. eauto 6.
Qed.

(** X3. A record that was built carries the article's fields as they came:
    the title, a string, unchanged; the name of the source; the publication
    time; and as text the normalized title, space and description, where a
    description that is absent, null or empty counts as the empty string. *)
Theorem build_record_fields (U : Unicode) (art : article) (r : record) :
  build_record art = inr r ->
  exists t,
    art !! "title"%string = Some (Scalar (JStr t))
    /\ r_title r = Scalar (JStr t)
    /\ source_name art = Some (r_source r)
    /\ art !! "publishedAt"%string = Some (r_publishedAt r)
    /\ r_text r = clean_text (t ++ [SPACE] ++ description_text art).
Proof.
  unfold build_record, source_name, getitem, get_or_empty, description_text.
  destruct (art !! "title"%string) as [[[|t]|dt]|]; try discriminate; simpl.
  destruct (art !! "description"%string) as [[[|d]|od]|]; simpl;
    repeat case_bool_decide; simpl; try discriminate;
    (destruct (art !! "source"%string) as [[sc|sd]|]; simpl; try discriminate;
     unfold getitem; destruct (sd !! "name"%string) as [name|]; simpl;
       try discriminate;
     destruct (art !! "publishedAt"%string) as [p|]; simpl; try discriminate;
     intros [= <-]; exists t; simpl; subst;
     rewrite <- ?app_assoc; repeat split; reflexivity).
Qed.

Lemma build_record_fields_witness :
  exists t,
    guest_article !! "title"%string = Some (Scalar (JStr t))
    /\ r_title guest_row = Scalar (JStr t)
    /\ source_name guest_article = Some (r_source guest_row)
    /\ guest_article !! "publishedAt"%string = Some (r_publishedAt guest_row)
    /\ r_text guest_row
       = @clean_text table (t ++ [SPACE] ++ description_text guest_article).
Proof.
  apply (build_record_fields table guest_article guest_row).
  vm_compute. reflexivity.
Defined.

(** ** clean_data.py: what normalized text looks like *)

Section ShapeFacts.
Context {U : Unicode}.

Lemma shape_alphabet s : forall b,
  forallb is_ascii s = true -> forallb kept s = true ->
  squeezed b s = true -> map ascii_lower s = s ->
  forallb normalized_char s = true
  /\ str_in [SPACE; SPACE] s = false
  /\ (b = true -> starts_with [SPACE] s = false).
Proof.
  induction s as [|c s IH]; intros b Ha Hk Hsq Hlow.
  - repeat split; reflexivity.
  - simpl in Ha, Hk, Hlow. apply andb_prop in Ha as [Hc Ha].
    apply andb_prop in Hk as [Hkc Hk]. injection Hlow as Hlc Hlow.
    cbn [squeezed] in Hsq. unfold kept in Hkc.
    rewrite (isword_ascii c Hc), (isspace_ascii c Hc) in Hkc.
    rewrite (isspace_ascii c Hc) in Hsq.
    destruct (ascii_isspace c) eqn:Esp.
    + apply andb_prop in Hsq as [[Hb Heq]%andb_prop Hsq].
      apply N.eqb_eq in Heq. subst c.
      destruct (IH true Ha Hk Hsq Hlow) as (H1 & H2 & H3).
      specialize (H3 eq_refl). cbn [forallb str_in starts_with] in *.
      rewrite H1, H2. cbn in H3 |- *.
      destruct s as [|d s]; [destruct b; repeat split; try reflexivity; discriminate|].
      cbn in H3 |- *. rewrite andb_true_r in H3. rewrite H3.
      destruct b; repeat split; try reflexivity; discriminate.
    + destruct (IH false Ha Hk Hsq Hlow) as (H1 & H2 & _).
      cbn [forallb str_in starts_with]. rewrite H1, H2.
      assert (normalized_char c = true /\ (SPACE =? c) = false) as [-> ->].
      { rewrite orb_false_r in Hkc. unfold normalized_char, SPACE.
        clear -Hc Hkc Esp Hlc. split; ascii_cases. }
      repeat split; reflexivity.
Qed.

End ShapeFacts.

(** X4. For every ASCII text, the normalized text is made of lower-case
    letters, digits, underscores and spaces only, and no two spaces are
    adjacent: no punctuation, no upper case, no tab or newline is left. *)
Theorem clean_text_alphabet (U : Unicode) (t : str) :
  forallb is_ascii t = true ->
  forallb normalized_char (clean_text t) = true
  /\ str_in [SPACE; SPACE] (clean_text t) = false.
Proof.
  intros Ht. destruct (clean_text_shape t Ht) as (Ha & Hk & Hsq & Hlow).
  destruct (shape_alphabet _ false Ha Hk Hsq Hlow) as (H1 & H2 & _).
  split; assumption.
Qed.

Lemma clean_text_alphabet_witness :
  forallb normalized_char
    (@clean_text table (pystr "Check this! https://x.co Amazing!!!")) = true
  /\ str_in [SPACE; SPACE]
       (@clean_text table (pystr "Check this! https://x.co Amazing!!!")) = false.
Proof.
  apply (clean_text_alphabet table (pystr "Check this! https://x.co Amazing!!!")).
  reflexivity.
Defined.

(** X5. For every ASCII text, the normalized text is no longer than the
    text. *)
Theorem clean_text_no_longer (U : Unicode) (t : str) :
  forallb is_ascii t = true ->
  (length (clean_text t) <= length t)%nat.
Proof.
  intros Ht. unfold clean_text, re_sub.
  pose proof (re_sub_from_forallb is_ascii URL_RE [] t 0 eq_refl Ht) as A1.
  pose proof (re_sub_from_forallb is_ascii PUNCT_RE [] _ 0 eq_refl A1) as A2.
  pose proof (re_sub_from_forallb is_ascii SPACES_RE [SPACE] _ 0 eq_refl A2) as A3.
  rewrite (lower_ascii _ A3), length_map.
  pose proof (re_sub_from_length URL_RE [] t 0 ltac:(simpl; lia)) as L1.
  pose proof (re_sub_from_length PUNCT_RE [] (re_sub_from 0 URL_RE [] t) 0
                ltac:(simpl; lia)) as L2.
  pose proof (re_sub_from_length SPACES_RE [SPACE]
                (re_sub_from 0 PUNCT_RE [] (re_sub_from 0 URL_RE [] t)) 0
                ltac:(simpl; lia)) as L3.
  lia.
Qed.

Lemma clean_text_no_longer_witness :
  (length (@clean_text table (pystr "Check this! https://x.co Amazing!!!"))
   <= length (pystr "Check this! https://x.co Amazing!!!"))%nat.
Proof.
  apply (clean_text_no_longer table (pystr "Check this! https://x.co Amazing!!!")).
  reflexivity.
Defined.

(** Outside ASCII the bound fails: U+0130 alone is normalized to two
    characters. *)
Example clean_text_longer_dotted_I : length (@clean_text table [304]) = 2%nat.
Proof. vm_compute. reflexivity. Qed.

(** ** Word counts *)

Section WordCountFacts.
Context {U : Unicode}.

Lemma split_from_words s : forall word,
  forallb nonspace word = true ->
  Forall (fun w => w <> [] /\ forallb nonspace w = true) (split_from word s)
  /\ concat (split_from word s) = word ++ List.filter nonspace s.
Proof.
  induction s as [|c s IH]; intros word Hw.
  - destruct word as [|x word]; simpl.
    + split; [constructor | reflexivity].
    + split; [repeat constructor; [discriminate | exact Hw]|].
      rewrite !app_nil_r. reflexivity.
  - cbn [split_from List.filter]. destruct (isspace c) eqn:E.
    + assert (nonspace c = false) as -> by (unfold nonspace; rewrite E; reflexivity).
      destruct (IH [] eq_refl) as [H1 H2].
      destruct word as [|x word].
      * split; [exact H1 | exact H2].
      * split; [constructor; [split; [discriminate | exact Hw] | exact H1]|].
        cbn [concat]. rewrite H2. reflexivity.
    + assert (nonspace c = true) as Hc by (unfold nonspace; rewrite E; reflexivity).
      rewrite Hc. destruct (IH (word ++ [c])) as [H1 H2].
      { rewrite forallb_app, Hw. simpl. rewrite Hc. reflexivity. }
      split; [exact H1|]. rewrite H2, <- app_assoc. reflexivity.
Qed.

Lemma split_from_length s : forall word,
  length (split_from word s) =
  match word with
  | [] => count_runs false s
  | _ :: _ => S (count_runs true s)
  end.
Proof.
  induction s as [|c s IH]; intros word.
  - destruct word; reflexivity.
  - cbn [split_from count_runs]. destruct (isspace c).
    + destruct word; cbn [length]; rewrite (IH []); reflexivity.
    + rewrite (IH (word ++ [c])). destruct word; reflexivity.
Qed.

Lemma count_runs_zero s :
  count_runs false s = O <-> forallb isspace s = true.
Proof.
  induction s as [|c s IH]; [split; reflexivity|].
  cbn [count_runs forallb]. destruct (isspace c); simpl; [exact IH|].
  split; discriminate.
Qed.

Lemma count_runs_squeeze s :
  (forall w, count_runs w (squeeze false s) = count_runs w s)
  /\ count_runs false (squeeze true s) = count_runs false s.
Proof.
  induction s as [|c s [IH0 IH1]]; [split; reflexivity|].
  cbn [squeeze]. destruct (isspace c) eqn:E.
  - split; [intros w|]; cbn [count_runs]; rewrite ?isspace_SPACE, ?E; exact IH1.
  - split; [intros w|]; cbn [count_runs]; rewrite E, IH0; reflexivity.
Qed.

Lemma count_runs_map_lower s : forall w,
  forallb is_ascii s = true ->
  count_runs w (map ascii_lower s) = count_runs w s.
Proof.
  induction s as [|c s IH]; intros w Ha; [reflexivity|].
  simpl in Ha. apply andb_prop in Ha as [Hc Ha]. cbn [map count_runs].
  rewrite (isspace_ascii _ (ascii_lower_ascii c Hc)), ascii_isspace_lower,
    <- (isspace_ascii c Hc).
  destruct (isspace c); rewrite IH by exact Ha; reflexivity.
Qed.

End WordCountFacts.

(** X6. The words [text.split()] returns are not empty and hold no white
    space, and put together they are the text without its white space:
    splitting loses nothing else and invents nothing. *)
Theorem str_split_words (U : Unicode) (s : str) :
  Forall (fun w => w <> [] /\ forallb (fun c => negb (isspace c)) w = true)
    (str_split s)
  /\ concat (str_split s) = List.filter (fun c => negb (isspace c)) s.
Proof. exact (split_from_words s [] eq_refl). Qed.

(** X7. The word count is the number of maximal runs of characters that are
    not white space; it is zero exactly for the texts made of white space
    only, the empty text among them. *)
Theorem word_count_runs (U : Unicode) (s : str) :
  word_count s = count_runs false s
  /\ (word_count s = O <-> forallb isspace s = true).
Proof.
  unfold word_count, str_split. rewrite (split_from_length s []).
  split; [reflexivity | apply count_runs_zero].
Qed.

(** X8. For every ASCII text, the word count of the normalized text is the
    word count of the text once its URLs and punctuation are removed:
    collapsing the white space and lower-casing change no word count. *)
Theorem word_count_clean_text (U : Unicode) (t : str) :
  forallb is_ascii t = true ->
  word_count (clean_text t)
  = word_count (remove_punctuation (remove_urls t)).
Proof.
  intros Ht.
  unfold word_count, str_split. rewrite !(split_from_length _ []).
  unfold clean_text.
  pose proof (re_sub_from_forallb is_ascii URL_RE [] t 0 eq_refl Ht) as A1.
  fold (re_sub URL_RE [] t) in A1.
  pose proof (re_sub_from_forallb is_ascii PUNCT_RE [] _ 0 eq_refl A1) as A2.
  fold (re_sub PUNCT_RE [] (re_sub URL_RE [] t)) in A2.
  pose proof (re_sub_from_forallb is_ascii SPACES_RE [SPACE] _ 0 eq_refl A2) as A3.
  fold (re_sub SPACES_RE [SPACE] (re_sub PUNCT_RE [] (re_sub URL_RE [] t))) in A3.
  rewrite (lower_ascii _ A3), (count_runs_map_lower _ _ A3).
  rewrite re_sub_spaces. unfold collapse_whitespace.
  rewrite (proj1 (count_runs_squeeze _)), re_sub_punct, re_sub_url.
  reflexivity.
Qed.

Lemma word_count_clean_text_witness :
  @word_count table (@clean_text table (pystr "Check this! https://x.co Amazing!!!"))
  = @word_count table
      (@remove_punctuation table
         (@remove_urls table (pystr "Check this! https://x.co Amazing!!!"))).
Proof.
  apply (word_count_clean_text table (pystr "Check this! https://x.co Amazing!!!")).
  reflexivity.
Defined.

Example word_count_reference :
  @word_count table (pystr "check this amazing") = 3%nat
  /\ @word_count table (pystr "  two   words ") = 2%nat
  /\ @word_count table [] = O.
Proof. repeat split; vm_compute; reflexivity. Qed.

(** ** llm_helper.py, further *)

Lemma firstn_512_length (t : str) : (length (firstn 512 t) <= 512)%nat.
Proof. rewrite length_firstn. lia. Qed.

(** X9. The sentiment classifier hands the model at most the first 512
    characters of the text: two models that agree on the texts of at most
    512 characters, and two texts that agree on their first 512 characters,
    give the same result. *)
Theorem analyze_sees_first_512
    (U : Unicode) (model1 model2 : str -> raw_result) (text1 text2 : str) :
  (forall x, (length x <= 512)%nat -> model1 x = model2 x) ->
  firstn 512 text1 = firstn 512 text2 ->
  analyze_article_with_local_llm model1 text1
  = analyze_article_with_local_llm model2 text2.
Proof.
  intros Hm Ht. unfold analyze_article_with_local_llm.
  rewrite Ht, (Hm _ (firstn_512_length text2)). reflexivity.
Qed.

Lemma analyze_sees_first_512_witness :
  @analyze_article_with_local_llm table positive_model (repeat 97 600)
  = @analyze_article_with_local_llm table short_sighted_model
      (repeat 97 512 ++ pystr "and then something else").
Proof.
  apply (analyze_sees_first_512 table positive_model short_sighted_model
           (repeat 97 600) (repeat 97 512 ++ pystr "and then something else")).
  - intros x Hx. unfold short_sighted_model.
    apply Nat.leb_le in Hx. rewrite Hx. reflexivity.
  - vm_compute. reflexivity.
Defined.



(** The score is also rounded twice in the web front end, to no effect. *)
Lemma round2_idempotent (x : Q) : round2 (round2 x) = round2 x.
Proof.
  unfold round2 at 1. set (k := round_half_even (x * 100)).
  unfold round2. fold k. f_equal.
  unfold round_half_even. cbn [Qnum Qden Qmult].
  change (Z.pos (100 * 1)) with 100%Z.
  rewrite Z.div_mul, Z.mod_mul by lia. reflexivity.
Qed.

(** ** The per-article loops, further *)

Section FrontEndFacts.
Context {U : Unicode}.
Variable classifier : str -> raw_result.

Lemma capitalize_idempotent_ascii (s : str) :
  forallb is_ascii s = true -> capitalize (capitalize s) = capitalize s.
Proof.
  intros Hs. rewrite (capitalize_ascii s Hs).
  destruct s as [|c r]; [apply (capitalize_ascii [] eq_refl)|].
  simpl in Hs. apply andb_prop in Hs as [Hc Hr].
  rewrite capitalize_ascii.
  - rewrite map_lower_idem. f_equal. clear -Hc. ascii_cases.
  - simpl. rewrite (ascii_upper_ascii c Hc). apply forallb_ascii_map_lower, Hr.
Qed.





End FrontEndFacts.

(** X11. In the terminal front end, when the model answers POSITIVE or
    NEGATIVE (in any casing) for the text of a row, the combined label of
    the row is one of "Clickbait + Positive", "Clickbait + Negative",
    "Not Clickbait + Positive" and "Not Clickbait + Negative". *)
Theorem terminal_combined_label
    (U : Unicode) (classifier : str -> raw_result) (idx : nat)
    (row : record) (r : result_row) :
  terminal_row classifier idx row = inr r ->
  (map ascii_lower (raw_label (classifier (firstn 512 (r_text row))))
     = pystr "positive" \/
   map ascii_lower (raw_label (classifier (firstn 512 (r_text row))))
     = pystr "negative") ->
  In (Combined_Label r)
    [pystr "Clickbait + Positive"; pystr "Clickbait + Negative";
     pystr "Not Clickbait + Positive"; pystr "Not Clickbait + Negative"].
Proof.
  unfold terminal_row, detect_clickbait_of.
  destruct (r_title row) as [[|t]|d]; try discriminate. cbn.
  intros [= <-] Hl. cbn [Combined_Label].
  unfold analyze_article_with_local_llm. cbn [label].
  destruct (detect_clickbait_two_labels t) as [-> | ->];
    destruct Hl as [Hl | Hl]; rewrite (capitalize_casing U _ _ Hl eq_refl);
    vm_compute; tauto.
Qed.

Lemma terminal_combined_label_witness :
  In (pystr "Not Clickbait + Positive")
    [pystr "Clickbait + Positive"; pystr "Clickbait + Negative";
     pystr "Not Clickbait + Positive"; pystr "Not Clickbait + Negative"].
Proof.
  apply (terminal_combined_label table positive_model 1 guest_row
           {| Article := pystr "1"; Title := r_title guest_row;
              Clickbait := pystr "Not Clickbait"; Sentiment := pystr "Positive";
              Sentiment_Score := (99 # 100)%Q;
              Combined_Label := pystr "Not Clickbait + Positive";
              Word_Count := 8 |}).
  - vm_compute. reflexivity.
  - left. reflexivity.
Defined.

(** X12. For a row on which the terminal front end succeeds and a raw label
    made of ASCII characters, the web front end succeeds too and gives the
    same article number, title, sentiment, sentiment score and word count:
    capitalizing the label and rounding the score a second time change
    nothing.  Its clickbait label is "Not Clickbait", whatever the title. *)
Theorem web_row_agrees
    (U : Unicode) (classifier : str -> raw_result) (idx : nat)
    (row : record) (rt : result_row) :
  terminal_row classifier idx row = inr rt ->
  forallb is_ascii (raw_label (classifier (firstn 512 (r_text row)))) = true ->
  exists rw,
    web_row classifier idx row = inr rw
    /\ Article rw = Article rt /\ Title rw = Title rt
    /\ Sentiment rw = Sentiment rt
    /\ Sentiment_Score rw = Sentiment_Score rt
    /\ Word_Count rw = Word_Count rt
    /\ Clickbait rw = pystr "Not Clickbait".
Proof.
  unfold terminal_row, web_row, detect_clickbait_of.
  destruct (r_title row) as [[|t]|d]; try discriminate. cbn.
  intros [= <-] Ha. eexists. split; [reflexivity|]. cbn.
  unfold analyze_article_with_local_llm. cbn [label score].
  rewrite (capitalize_idempotent_ascii _ Ha), round2_idempotent.
  repeat split.
  destruct (detect_clickbait_two_labels t) as [-> | ->];
    rewrite lower_ascii by reflexivity; reflexivity.
Qed.

Lemma web_row_agrees_witness :
  exists rw,
    @web_row table positive_model 1 guest_row = inr rw
    /\ Article rw = pystr "1" /\ Title rw = r_title guest_row
    /\ Sentiment rw = pystr "Positive"
    /\ Sentiment_Score rw = (99 # 100)%Q
    /\ Word_Count rw = 8%nat
    /\ Clickbait rw = pystr "Not Clickbait".
Proof.
  apply (web_row_agrees table positive_model 1 guest_row
           {| Article := pystr "1"; Title := r_title guest_row;
              Clickbait := pystr "Not Clickbait"; Sentiment := pystr "Positive";
              Sentiment_Score := (99 # 100)%Q;
              Combined_Label := pystr "Not Clickbait + Positive";
              Word_Count := 8 |}).
  - vm_compute. reflexivity.
  - reflexivity.
Defined.



(** ** The keyword filter, further *)

(** X14. For an ASCII topic without special characters of regular
    expressions and rows of ASCII text, the keyword filter keeps exactly the
    rows in whose title or text the topic occurs, case-insensitively, as a
    substring, in their order. *)
Theorem keyword_filter_literal_topic
    (U : Unicode) (topic : str) (df : list record) :
  existsb is_special topic = false ->
  forallb is_ascii topic = true ->
  forallb ascii_row df = true ->
  keyword_filter topic df = Some (List.filter (topic_occurs topic) df).
Proof.
  intros Hsp Ha. induction df as [|row df IH]; intros Hdf; [reflexivity|].
  simpl in Hdf. apply andb_prop in Hdf as [Hrow Hdf].
  unfold ascii_row in Hrow. apply andb_prop in Hrow as [Ht Hx].
  destruct (r_title row) as [[|t]|d] eqn:Et; try discriminate.
  cbn [keyword_filter List.filter].
  rewrite (keep_row_literal topic row t Hsp Ha Et Ht Hx), (IH Hdf). cbn.
  destruct (topic_occurs topic row); reflexivity.
Qed.

Lemma keyword_filter_literal_topic_witness :
  @keyword_filter table (pystr "guest") [docstring_row; guest_row]
  = Some (List.filter (@topic_occurs table (pystr "guest"))
            [docstring_row; guest_row]).
Proof.
  apply (keyword_filter_literal_topic table (pystr "guest")
           [docstring_row; guest_row]); reflexivity.
Defined.

Example keyword_filter_guest :
  @keyword_filter table (pystr "guest") [docstring_row; guest_row]
  = Some [guest_row].
Proof. vm_compute. reflexivity. Qed.

(** X15. The empty topic keeps every row: the filter returns the data frame
    as it is. *)
Theorem keyword_filter_empty_topic (U : Unicode) (df : list record) :
  keyword_filter [] df = Some df.
Proof.
  induction df as [|row df IH]; [reflexivity|].
  cbn [keyword_filter]. rewrite IH.
  assert (keep_row [] row = Some true) as ->; [|reflexivity].
  unfold keep_row, str_contains_nocase. cbn.
  assert (forall s, re_search [] s = true) as Hs by (intros [|c s]; reflexivity).
  rewrite Hs, orb_true_r. reflexivity.
Qed.

(** ** Highlighting, further *)

Section HighlightMore.
Context {U : Unicode}.
Variables RED base_color : str.

Lemma highlight_loop_more_fuel (text keyword kl : str) (fuel : nat) :
  forall i acc out,
    highlight_loop RED base_color fuel text keyword kl i acc = Some out ->
    forall k,
      highlight_loop RED base_color (fuel + k) text keyword kl i acc = Some out.
Proof.
  induction fuel as [|fuel IH]; intros i acc out H k; [discriminate|].
  cbn [Nat.add highlight_loop] in *.
  destruct (text !! i); [|exact H].
  destruct (str_eqb _ kl); apply IH; exact H.
Qed.

Lemma slice_here (text : str) (i n : nat) :
  slice text i (i + n) = firstn n (skipn i text).
Proof. unfold slice. f_equal. lia. Qed.

Lemma skipn_here (text : str) (i n : nat) :
  skipn i text = firstn n (skipn i text) ++ skipn (i + n) text.
Proof.
  rewrite <- (firstn_skipn n (skipn i text)) at 1.
  rewrite skipn_skipn, (Nat.add_comm n i). reflexivity.
Qed.

Lemma highlight_loop_decorated (text keyword kl : str) (fuel : nat) :
  forall i acc out,
    highlight_loop RED base_color fuel text keyword kl i acc = Some out ->
    exists o, out = acc ++ o
              /\ decorated RED base_color kl (skipn i text) o.
Proof.
  induction fuel as [|fuel IH]; intros i acc out H; [discriminate|].
  cbn [highlight_loop] in H. destruct (text !! i) as [c|] eqn:Ei.
  - rewrite slice_here in H.
    destruct (str_eqb (lower (firstn (length keyword) (skipn i text))) kl) eqn:Eq.
    + apply IH in H as (o & -> & Hdec).
      exists (RED ++ firstn (length keyword) (skipn i text) ++ base_color ++ o).
      split; [rewrite <- !app_assoc; reflexivity|].
      pose proof (skipn_here text i (length keyword)) as Hs.
      set (w := firstn (length keyword) (skipn i text)) in *.
      rewrite Hs. apply decorated_hit; [|exact Hdec].
      unfold str_eqb in Eq. apply bool_decide_eq_true_1 in Eq. exact Eq.
    + apply IH in H as (o & -> & Hdec).
      exists (c :: o). split; [rewrite <- app_assoc; reflexivity|].
      rewrite (drop_S _ _ _ Ei). apply decorated_char.
      rewrite Nat.add_1_r in Hdec. exact Hdec.
  - injection H as <-. exists []. split; [rewrite app_nil_r; reflexivity|].
    apply lookup_ge_None_1 in Ei. rewrite skipn_all2 by exact Ei. constructor.
Qed.

End HighlightMore.

(** X16. For a keyword that is not empty, [highlight_keyword] returns, and
    what it returns does not depend on the number of iterations allowed once
    that number exceeds the length of the text. *)
Theorem highlight_keyword_returns
    (U : Unicode) (RED base_color text keyword : str) :
  keyword <> [] ->
  exists out, forall fuel,
    (length text < fuel)%nat ->
    highlight_keyword RED base_color fuel text keyword = Some out.
Proof.
  intros Hk.
  destruct (highlight_loop_terminates RED base_color text keyword
              (lower keyword) Hk (S (length text)) O [] ltac:(lia)) as [out Hout].
  exists out. intros fuel Hfuel. unfold highlight_keyword.
  replace fuel with (S (length text) + (fuel - S (length text)))%nat by lia.
  apply highlight_loop_more_fuel. exact Hout.
Qed.

Lemma highlight_keyword_returns_witness :
  exists out, forall fuel,
    (length (pystr "Apple iPhone news") < fuel)%nat ->
    @highlight_keyword table (pystr "<") (pystr ">") fuel
      (pystr "Apple iPhone news") (pystr "iphone") = Some out.
Proof.
  apply (highlight_keyword_returns table (pystr "<") (pystr ">")
           (pystr "Apple iPhone news") (pystr "iphone")).
  discriminate.
Defined.

(** X17. Whatever [highlight_keyword] returns is the text itself in which
    some segments are wrapped in the red and the base colour codes; each
    wrapped segment equals the keyword once both are lower-cased; no other
    character is added, dropped or moved. *)
Theorem highlight_keyword_decorates
    (U : Unicode) (RED base_color text keyword out : str) (fuel : nat) :
  highlight_keyword RED base_color fuel text keyword = Some out ->
  decorated RED base_color (lower keyword) text out.
Proof.
  unfold highlight_keyword. intros H.
  apply highlight_loop_decorated in H as (o & -> & Hdec). exact Hdec.
Qed.

Lemma highlight_keyword_decorates_witness :
  @decorated table (pystr "<") (pystr ">") (@lower table (pystr "iphone"))
    (pystr "Apple iPhone news") (pystr "Apple <iPhone> news").
Proof.
  apply (highlight_keyword_decorates table (pystr "<") (pystr ">")
           (pystr "Apple iPhone news") (pystr "iphone")
           (pystr "Apple <iPhone> news") 18).
  vm_compute. reflexivity.
Defined.

(** ** The two highlighters *)

Lemma starts_with_firstn (p s : str) :
  starts_with p s = str_eqb (firstn (length p) s) p.
Proof.
  unfold str_eqb. revert s. induction p as [|a p IH]; intros s.
  - reflexivity.
  - destruct s as [|b s]; [reflexivity|]. cbn [starts_with length firstn].
    rewrite IH. destruct (N.eqb_spec a b); cbn [andb];
      repeat case_bool_decide; try reflexivity; congruence.
Qed.

Lemma starts_with_length (p s : str) :
  starts_with p s = true -> (length p <= length s)%nat.
Proof.
  revert s. induction p as [|a p IH]; intros s H; [simpl; lia|].
  destruct s as [|b s]; [discriminate|]. simpl in H.
  apply andb_prop in H as [_ H]. apply IH in H. simpl. lia.
Qed.

Lemma forallb_skipn (P : N -> bool) (s : str) (n : nat) :
  forallb P s = true -> forallb P (skipn n s) = true.
Proof.
  revert s. induction n as [|n IH]; intros s H; [exact H|].
  destruct s as [|c s]; [reflexivity|]. simpl in H.
  apply andb_prop in H as [_ H]. exact (IH s H).
Qed.

Lemma forallb_firstn (P : N -> bool) (s : str) (n : nat) :
  forallb P s = true -> forallb P (firstn n s) = true.
Proof.
  revert s. induction n as [|n IH]; intros s H; [reflexivity|].
  destruct s as [|c s]; [reflexivity|]. simpl in H |- *.
  apply andb_prop in H as [Hc H]. rewrite Hc. exact (IH s H).
Qed.

Section TwoHighlighters.
Context {U : Unicode}.
Variables pre post : str.

Lemma re_sub_wrap_from_skip (r : regex) (s : str) : forall n,
  (n <= length s)%nat ->
  re_sub_wrap_from n r pre post s = re_sub_wrap_from 0 r pre post (skipn n s).
Proof.
  induction s as [|c s IH]; intros n Hn.
  - simpl in Hn. replace n with O by lia. reflexivity.
  - destruct n as [|n]; [reflexivity|]. simpl in Hn. cbn [re_sub_wrap_from skipn].
    apply IH. lia.
Qed.

(** The test of the terminal loop is the match of the escaped pattern. *)
Lemma terminal_test_is_match (keyword s : str) :
  forallb is_ascii keyword = true -> forallb is_ascii s = true ->
  str_eqb (lower (firstn (length keyword) s)) (lower keyword)
  = starts_with (map ascii_lower keyword) (map ascii_lower s).
Proof.
  intros Hk Hs.
  rewrite (lower_ascii _ Hk), (lower_ascii _ (forallb_firstn _ _ _ Hs)).
  rewrite starts_with_firstn, length_map, firstn_map. reflexivity.
Qed.

Lemma highlight_loop_is_sub (text keyword : str) :
  forallb is_ascii text = true -> forallb is_ascii keyword = true ->
  keyword <> [] ->
  forall fuel i acc,
    (i <= length text)%nat -> (length text - i < fuel)%nat ->
    highlight_loop pre post fuel text keyword (lower keyword) i acc
    = Some (acc ++ re_sub_wrap_from 0 (escaped_pattern keyword) pre post
                     (skipn i text)).
Proof.
  intros Ht Hk Hne. unfold escaped_pattern.
  induction fuel as [|fuel IH]; intros i acc Hi Hfuel; [lia|].
  cbn [highlight_loop]. destruct (text !! i) as [c|] eqn:Ei.
  - pose proof (lookup_lt_Some _ _ _ Ei) as Hlt.
    rewrite slice_here.
    pose proof (forallb_skipn is_ascii text i Ht) as Hs.
    rewrite (terminal_test_is_match keyword _ Hk Hs).
    pose proof (match_len_literals keyword (skipn i text) Hk Hs) as Hm.
    rewrite (drop_S _ _ _ Ei) in Hm |- *. cbn [re_sub_wrap_from]. rewrite Hm.
    rewrite <- (drop_S _ _ _ Ei).
    destruct (starts_with (map ascii_lower keyword)
                (map ascii_lower (skipn i text))) eqn:Es.
    + apply starts_with_length in Es. rewrite !length_map, length_skipn in Es.
      destruct keyword as [|a kw] eqn:Ekw; [congruence|]. rewrite <- Ekw in *.
      assert (length keyword = S (length kw)) as Hlen by (subst; reflexivity).
      rewrite Hlen. rewrite IH by lia.
      rewrite (re_sub_wrap_from_skip (literals keyword) (skipn (S i) text)
                 (length kw)) by (rewrite length_skipn; lia).
      rewrite skipn_skipn.
      replace (length kw + S i)%nat with (i + S (length kw))%nat by lia.
      rewrite <- !app_assoc. reflexivity.
    + rewrite IH by lia. rewrite Nat.add_1_r, <- app_assoc. reflexivity.
  - apply lookup_ge_None_1 in Ei. rewrite skipn_all2 by exact Ei.
    destruct keyword as [|a kw]; [congruence|]. cbn. rewrite app_nil_r.
    reflexivity.
Qed.

End TwoHighlighters.

(** X18. For an ASCII text and an ASCII keyword that is not empty, the
    terminal highlighter run with the two halves of the HTML template as its
    colour codes returns what the web highlighter returns: the two front
    ends highlight the same occurrences. *)
Theorem highlighters_agree (U : Unicode) (text keyword : str) (fuel : nat) :
  forallb is_ascii text = true ->
  forallb is_ascii keyword = true ->
  keyword <> [] ->
  (length text < fuel)%nat ->
  highlight_keyword SPAN_OPEN SPAN_CLOSE fuel text keyword
  = Some (highlight_keyword_html text keyword).
Proof.
  intros Ht Hk Hne Hfuel. unfold highlight_keyword.
  rewrite (highlight_loop_is_sub SPAN_OPEN SPAN_CLOSE text keyword Ht Hk Hne)
    by lia.
  cbn [app skipn]. unfold highlight_keyword_html.
  destruct text as [|c text]; [|reflexivity].
  destruct keyword as [|a kw]; [congruence|]. reflexivity.
Qed.

Lemma highlighters_agree_witness :
  @highlight_keyword table SPAN_OPEN SPAN_CLOSE 18
    (pystr "Apple iPhone news") (pystr "iphone")
  = Some (@highlight_keyword_html table (pystr "Apple iPhone news")
            (pystr "iphone")).
Proof.
  apply (highlighters_agree table (pystr "Apple iPhone news") (pystr "iphone") 18).
  - reflexivity.
  - reflexivity.
  - discriminate.
  - vm_compute. reflexivity.
Defined.

Example highlight_keyword_html_docstring :
  @highlight_keyword_html table (pystr "Apple iPhone news") (pystr "iphone")
  = pystr "Apple " ++ SPAN_OPEN ++ pystr "iPhone" ++ SPAN_CLOSE ++ pystr " news".
Proof. vm_compute. reflexivity. Qed.

(** X19. On the empty keyword the web highlighter wraps the empty match at
    every position: an empty highlighted span before each character of the
    text and one at its end, the text itself unchanged in between; on the
    empty text it returns the empty string. *)
Theorem highlight_keyword_html_empty_keyword (U : Unicode) (text : str) :
  highlight_keyword_html text []
  = match text with
    | [] => []
    | _ :: _ =>
        flat_map (fun c => SPAN_OPEN ++ SPAN_CLOSE ++ [c]) text
        ++ SPAN_OPEN ++ SPAN_CLOSE
    end.
Proof.
  unfold highlight_keyword_html, escaped_pattern, literals. cbn [map].
  assert (forall s, re_sub_wrap_from 0 [] SPAN_OPEN SPAN_CLOSE s
                    = flat_map (fun c => SPAN_OPEN ++ SPAN_CLOSE ++ [c]) s
                      ++ SPAN_OPEN ++ SPAN_CLOSE) as H.
  { induction s as [|c s IH]; [reflexivity|].
    cbn [re_sub_wrap_from match_len flat_map]. rewrite IH.
    rewrite <- !app_assoc. reflexivity. }
  destruct text as [|c text]; [reflexivity|]. apply H.
Qed.

(** ** Clickbait detection, further *)

(** X20. For ASCII strings, text added before or after a title never hides
    its clickbait: if a title is classified "Clickbait", so is every title
    that contains it. *)
Theorem clickbait_survives_context (U : Unicode) (before title after : str) :
  forallb is_ascii before = true ->
  forallb is_ascii title = true ->
  forallb is_ascii after = true ->
  detect_clickbait_in_title title = pystr "Clickbait" ->
  detect_clickbait_in_title (before ++ title ++ after) = pystr "Clickbait".
Proof.
  intros Hb Ht Ha. rewrite !detect_clickbait_iff.
  intros (word & Hin & Hw). exists word. split; [exact Hin|].
  rewrite (lower_ascii _ Ht) in Hw.
  rewrite lower_ascii by (rewrite !forallb_app, Hb, Ht, Ha; reflexivity).
  rewrite !map_app. apply str_in_spec in Hw as (p & q & ->).
  apply str_in_spec. exists (map ascii_lower before ++ p), (q ++ map ascii_lower after).
  rewrite <- !app_assoc. reflexivity.
Qed.

Lemma clickbait_survives_context_witness :
  @detect_clickbait_in_title table
    (pystr "BREAKING: " ++ pystr "Shocking news" ++ pystr " - live updates")
  = pystr "Clickbait".
Proof.
  apply (clickbait_survives_context table (pystr "BREAKING: ")
           (pystr "Shocking news") (pystr " - live updates")).
  - reflexivity.
  - reflexivity.
  - reflexivity.
  - vm_compute. reflexivity.
Defined.

(** ** demo.py *)

(** X21. The analysis loop of the demo never produces a row: for every
    model and every list of articles that is not empty, it raises
    [AttributeError], since it calls [upper] on the dictionary the sentiment
    classifier returns; so does [analyze_sample_articles] on the five sample
    articles. *)
Theorem demo_analysis_raises (U : Unicode) (classifier : str -> raw_result) :
  (forall i articles results,
     articles <> [] ->
     demo_loop classifier i articles results = inl (AttributeError "upper"))
  /\ analyze_sample_articles classifier = inl (AttributeError "upper").
Proof.
  assert (forall i articles results,
            articles <> [] ->
            demo_loop classifier i articles results
            = inl (AttributeError "upper")) as H.
  { intros i [|article rest] results Hne; [congruence|]. reflexivity. }
  split; [exact H|]. apply H. discriminate.
Qed.

(** ** The text of a record is never empty *)

Section SpaceFacts.
Context {U : Unicode}.

Lemma existsb_isspace_drop_while (s : str) :
  existsb isspace (drop_while (fun c => negb (isspace c)) s) = existsb isspace s.
Proof.
  induction s as [|c s IH]; [reflexivity|]. cbn [drop_while existsb].
  destruct (isspace c) eqn:E; cbn [negb]; [cbn; rewrite E; reflexivity | exact IH].
Qed.

Lemma url_starts_no_space (s : str) :
  url_starts s = true -> existsb isspace (skipn 4 s) = existsb isspace s.
Proof.
  unfold url_starts. change (pystr "http") with [104; 116; 116; 112].
  intros [Hs _]%andb_prop.
  destruct s as [|c1 [|c2 [|c3 [|c4 s]]]]; cbn [starts_with] in Hs;
    rewrite ?andb_false_r in Hs; try discriminate.
  apply andb_prop in Hs as [H1 Hs]. apply andb_prop in Hs as [H2 Hs].
  apply andb_prop in Hs as [H3 Hs]. apply andb_prop in Hs as [H4 _].
  apply N.eqb_eq in H1, H2, H3, H4. subst.
  cbn [skipn existsb]. rewrite !isspace_ascii by reflexivity. reflexivity.
Qed.

Lemma remove_urls_fuel_keeps_space (fuel : nat) : forall s,
  existsb isspace s = true ->
  (length s <= fuel)%nat ->
  existsb isspace (remove_urls_fuel fuel s) = true.
Proof.
  induction fuel as [|fuel IH]; intros s Hs Hlen.
  - destruct s; [discriminate | simpl in Hlen; lia].
  - destruct s as [|c s]; [discriminate|]. cbn [remove_urls_fuel].
    destruct (url_starts (c :: s)) eqn:Eu.
    + apply IH.
      * rewrite existsb_isspace_drop_while, (url_starts_no_space _ Eu). exact Hs.
      * pose proof (drop_while_length (fun c => negb (isspace c))
                      (skipn 4 (c :: s))) as H.
        change (skipn 4 (c :: s)) with (skipn 3 s) in *.
        rewrite length_skipn in H. simpl in Hlen. lia.
    + cbn [existsb] in Hs |- *. destruct (isspace c); [reflexivity|].
      apply IH; [exact Hs | simpl in Hlen; lia].
Qed.

Lemma remove_punctuation_keeps_space (s : str) :
  existsb isspace (remove_punctuation s) = existsb isspace s.
Proof.
  unfold remove_punctuation. induction s as [|c s IH]; [reflexivity|].
  cbn [List.filter existsb]. destruct (isspace c) eqn:E.
  - rewrite orb_true_r. cbn. rewrite E. reflexivity.
  - rewrite orb_false_r. destruct (isword c); cbn; rewrite ?E; exact IH.
Qed.

Lemma squeeze_has_space (s : str) :
  existsb isspace s = true -> In SPACE (squeeze false s).
Proof.
  induction s as [|c s IH]; [discriminate|]. cbn [existsb squeeze].
  destruct (isspace c); [intros _; left; reflexivity|].
  intros H. right. exact (IH H).
Qed.

Lemma clean_text_has_space (t : str) :
  forallb is_ascii t = true ->
  existsb isspace t = true ->
  In SPACE (clean_text t).
Proof.
  intros Ht Hs. unfold clean_text.
  pose proof (re_sub_from_forallb is_ascii URL_RE [] t 0 eq_refl Ht) as A1.
  fold (re_sub URL_RE [] t) in A1.
  pose proof (re_sub_from_forallb is_ascii PUNCT_RE [] _ 0 eq_refl A1) as A2.
  fold (re_sub PUNCT_RE [] (re_sub URL_RE [] t)) in A2.
  pose proof (re_sub_from_forallb is_ascii SPACES_RE [SPACE] _ 0 eq_refl A2) as A3.
  fold (re_sub SPACES_RE [SPACE] (re_sub PUNCT_RE [] (re_sub URL_RE [] t))) in A3.
  rewrite (lower_ascii _ A3), re_sub_spaces, re_sub_punct, re_sub_url.
  apply (in_map ascii_lower _ SPACE). apply squeeze_has_space.
  rewrite remove_punctuation_keeps_space.
  apply remove_urls_fuel_keeps_space; [exact Hs | reflexivity].
Qed.

End SpaceFacts.

Lemma build_record_text_space (U : Unicode) (art : article) (r : record) :
  build_record art = inr r ->
  ascii_article art = true ->
  In SPACE (r_text r).
Proof.
  intros Hb Ha.
  unfold ascii_article in Ha. apply andb_prop in Ha as [Ht Hd].
  revert Hb. unfold build_record, getitem.
  destruct (art !! "title"%string) as [[[|t]|dt]|]; try discriminate; simpl.
  assert (forall d, In SPACE (clean_text ((t ++ [SPACE]) ++ d))
                    \/ forallb is_ascii d = false) as Hsp.
  { intros d. destruct (forallb is_ascii d) eqn:Ed; [left | right; reflexivity].
    apply clean_text_has_space.
    - rewrite !forallb_app, Ht, Ed. reflexivity.
    - rewrite !existsb_app. cbn [existsb]. rewrite isspace_SPACE.
      rewrite !orb_true_r. reflexivity. }
  unfold get_or_empty, description_text in *.
  destruct (art !! "description"%string) as [[[|d]|od]|]; simpl;
    repeat case_bool_decide; simpl; try discriminate;
    (destruct (art !! "source"%string) as [[sc|sd]|]; simpl; try discriminate;
     unfold getitem; destruct (sd !! "name"%string) as [name|]; simpl;
       try discriminate;
     destruct (art !! "publishedAt"%string) as [p|]; simpl; try discriminate;
     intros [= <-]; cbn [r_text];
     match goal with
     | |- In SPACE (clean_text (_ ++ ?d)) =>
         let Hd' := fresh "Hd'" in
         destruct (Hsp d) as [Hd' | Hd']; [exact Hd' | simpl in Hd'; congruence]
     end).
Qed.

(** X22. The text of a record built from an ASCII article is never empty:
    the space put between the title and the description survives the
    normalization, whatever the title and the description are. *)
Theorem record_text_has_space (U : Unicode) (art : article) (r : record) :
  build_record art = inr r ->
  ascii_article art = true ->
  In SPACE (r_text r) /\ r_text r <> [].
Proof.
  intros Hb Ha. pose proof (build_record_text_space U art r Hb Ha) as Hin.
  split; [exact Hin|]. intros E. rewrite E in Hin. exact Hin.
Qed.

Lemma record_text_has_space_witness :
  In SPACE (r_text guest_row) /\ r_text guest_row <> [].
Proof.
  apply (record_text_has_space table guest_article guest_row).
  - vm_compute. reflexivity.
  - vm_compute. reflexivity.
Defined.

(** X23. For a record built from an ASCII article, the text both front ends
    show for the selected article is always the normalized text of the
    record: the fall-backs to the content, the description and the title are
    never used. *)
Theorem full_text_is_text (U : Unicode) (art : article) (r : record) :
  build_record art = inr r ->
  ascii_article art = true ->
  full_text r = Scalar (JStr (r_text r)).
Proof.
  intros Hb Ha. pose proof (build_record_text_space U art r Hb Ha) as Hin.
  unfold full_text, py_or, series_get. cbn.
  destruct (r_text r); [destruct Hin | reflexivity].
Qed.

Lemma full_text_is_text_witness :
  full_text guest_row = Scalar (JStr (r_text guest_row)).
Proof.
  apply (full_text_is_text table guest_article guest_row).
  - vm_compute. reflexivity.
  - vm_compute. reflexivity.
Defined.
